(** * FrameAnimator: a shallow embedding of [src/js/frame-animator.js]

    The class [FrameAnimator] plays a numbered sequence of still images on a
    canvas.  This development embeds its constructor, its loader, its
    playback methods ([play], [playFromFrame], [stop], [animate],
    [renderFrame], [handleResize]) and its two path helpers as functions on
    an explicit object state, and settles the properties the specification
    states about them.

    Conventions.
    - A JS number that the program treats as a count or an index is a [Z];
      a number that carries a time, a ratio or a raw option is a [Q] (the
      rational a finite double denotes) or [Js.NaN].  The arithmetic of
      the clock tick and of the canvas sizing rounds every result to the
      nearest double ([Js.sub], [Js.div], [Js.mul], on top of [Js.fl]); the
      remainder [%] of two doubles is a double and needs no rounding.  The
      progress ratio and the batch count are kept as exact rationals: their
      order, the value 1 and the ceiling are the same after rounding.  A
      division by zero, which the class never reaches with a truthy [fps],
      yields 0.
    - The host (canvas, [requestAnimationFrame], the image decoder, the
      clock) is explicit: its observable part is stored in the state
      ([pending], [drawn], [progressReports]) or passed as an argument
      ([decode], [timestamp], [throws]). *)

From Stdlib Require Import ZArith QArith Qround Qminmax String Ascii DecimalString Lia Lqa Bool.
From Stdlib Require DecimalPos.
From stdpp Require Import base list gmap strings.

Local Open Scope Z_scope.

(* ================================================================== *)
(** * JavaScript primitives used by the class *)
(* ================================================================== *)

Module Js.

(** A value of type number: a finite double or NaN. *)
Inductive number :=
| Num (q : Q)
| NaN.

(** Exceptions the constructor and the loader can raise. *)
Inductive exn :=
| Error (message : string)
| RangeError.

Inductive completion (A : Type) :=
| Return (a : A)
| Throw (e : exn).
Arguments Return {A} a.
Arguments Throw {A} e.

(** ToBoolean, per type.  A missing property reads as [undefined]. *)
Definition Q_truthy (q : Q) : bool := negb (Qeq_bool q 0).

Definition number_truthy (n : number) : bool :=
  match n with
  | Num q => Q_truthy q
  | NaN => false
  end.

Definition string_truthy (s : string) : bool := negb (String.eqb s "").

Definition opt_truthy {A} (truthy : A -> bool) (v : option A) : bool :=
  match v with
  | Some x => truthy x
  | None => false
  end.

(** [v || d] where [d] is a literal of the same type. *)
Definition or_default {A} (truthy : A -> bool) (v : option A) (d : A) : A :=
  match v with
  | Some x => if truthy x then x else d
  | None => d
  end.

(** [v !== false] *)
Definition not_false (v : option bool) : bool :=
  match v with
  | Some false => false
  | _ => true
  end.

(** [a > b] on finite numbers. *)
Definition gt (a b : Q) : bool := negb (Qle_bool a b).

(** Rounding toward zero, and the [%] of finite numbers:
    [a % b = a - b * trunc (a / b)], with the sign of the dividend. *)
Definition truncate (q : Q) : Z := Z.quot (Qnum q) (Zpos (Qden q)).

Definition fmod (a b : Q) : Q :=
  (a - b * inject_Z (truncate (a / b)))%Q.

(** [%] on integers. *)
Definition rem (a b : Z) : Z := Z.rem a b.

(** ToLength of a finite number. *)
Definition ToLength (q : Q) : Z := Z.max 0 (truncate q).

(** [Math.ceil] *)
Definition ceil (q : Q) : Z := Qceiling q.

(** [Number.prototype.toString] on an integer. *)
Definition toString (n : Z) : string := NilZero.string_of_int (Z.to_int n).

(** [String.prototype.endsWith] *)
Definition endsWith (s search : string) : bool :=
  let len := String.length s in
  let searchLength := String.length search in
  if (len <? searchLength)%nat then false
  else String.eqb (substring (len - searchLength) searchLength s) search.

(** The first [n] characters of [fill] repeated for ever; [cur] is what
    is left of the copy being read. *)
Fixpoint filler (fill cur : string) (n : nat) : string :=
  match n with
  | O => EmptyString
  | S n' =>
    match cur with
    | String c rest => String c (filler fill rest n')
    | EmptyString =>
      match fill with
      | String c rest => String c (filler fill rest n')
      | EmptyString => EmptyString
      end
    end
  end.

(** [String.prototype.padStart] *)
Definition padStart (s : string) (maxLength : Q) (fillString : string) : string :=
  let intMaxLength := ToLength maxLength in
  let stringLength := Z.of_nat (String.length s) in
  if intMaxLength <=? stringLength then s
  else if String.eqb fillString "" then s
  else
    let fillLen := intMaxLength - stringLength in
    (filler fillString fillString (Z.to_nat fillLen) ++ s)%string.

(** [new Array(len).fill(x)] for a number [len]: a length that is not an
    integer in [0, 2^32 - 1] raises a RangeError. *)
Definition valid_array_length (q : Q) : bool :=
  Qeq_bool (inject_Z (Qfloor q)) q && (0 <=? Qfloor q) && (Qfloor q <? 2 ^ 32).

Definition new_array_fill {A} (len : Q) (x : A) : completion (list A) :=
  if valid_array_length len then Return (replicate (Z.to_nat (Qfloor len)) x)
  else Throw RangeError.

(** [arr[i]] for a number [i] that is an integer. *)
Definition index {A} (arr : list A) (i : Z) : option A :=
  if i <? 0 then None else arr !! Z.to_nat i.

(** [arr[i] = x] for a number [i] that is an integer: past the end the
    array grows, the holes reading as [undefined] (here [hole]). *)
Definition assign {A} (hole : A) (arr : list A) (i : Z) (x : A) : list A :=
  if i <? 0 then arr
  else if i <? Z.of_nat (length arr) then <[Z.to_nat i := x]> arr
  else arr ++ replicate (Z.to_nat i - length arr) hole ++ [x].

(** The double nearest to a rational: round to nearest, ties to even, for
    magnitudes below [2^1024], subnormals included.  [floor_log2 n d] is
    the binary exponent of [n / d]; the significand has 53 bits, the
    smallest exponent is [-1074]. *)
Definition round_half_even (n d : Z) : Z :=
  let f := n / d in
  let r := n mod d in
  match 2 * r ?= d with
  | Lt => f
  | Gt => f + 1
  | Eq => if Z.even f then f else f + 1
  end.

Definition floor_log2 (n d : Z) : Z :=
  let k := Z.log2 n - Z.log2 d in
  if (if 0 <=? k then d * 2 ^ k <=? n else d <=? n * 2 ^ (- k)) then k else k - 1.

Definition fl (q : Q) : Q :=
  let n := Z.abs (Qnum q) in
  let d := Z.pos (Qden q) in
  if n =? 0 then 0%Q
  else
    let e := Z.max (floor_log2 n d - 52) (-1074) in
    let r :=
      if 0 <=? e then inject_Z (round_half_even n (d * 2 ^ e) * 2 ^ e)
      else (round_half_even (n * 2 ^ (- e)) d # Z.to_pos (2 ^ (- e)))%Q in
    if Qnum q <? 0 then (- r)%Q else r.

(** [a - b], [a / b] and [a * b] on doubles. *)
Definition sub (a b : Q) : Q := fl (a - b).
Definition div (a b : Q) : Q := fl (a / b).
Definition mul (a b : Q) : Q := fl (a * b).

End Js.

(* ================================================================== *)
(** * The object state *)
(* ================================================================== *)

(** A decoded image: where it was fetched from and its natural size. *)
Record Image := {
  src : string;
  naturalWidth : Q;
  naturalHeight : Q
}.

(** The options object handed to the constructor.  Each property is
    missing ([None]) or has the type the class uses it at. *)
Record Options := {
  o_canvas : option nat;
  o_prefix : option string;
  o_frameCount : option Js.number;
  o_imagePath : option string;
  o_digits : option Js.number;
  o_fps : option Js.number;
  o_loop : option bool;
  o_autoplay : option bool;
  o_debug : option bool;
  o_playOnce : option bool
}.

(** Properties assigned once, by the constructor. *)
Record Config := {
  c_canvas : nat;
  c_prefix : string;
  c_frameCount : Z;
  c_imagePath : string;
  c_digits : Q;
  c_fps : Q;
  c_loop : bool;
  c_autoplay : bool;
  c_debug : bool;
  c_playOnce : bool
}.

(** Properties the playback methods assign. *)
Record Playback := {
  p_currentFrame : Z;
  p_isPlaying : bool;
  p_animationId : option nat;
  p_hasPlayed : bool;
  p_lastTime : option Q
}.

(** Properties the loader and the sizer assign. *)
Record Loading := {
  l_images : list (option Image);
  l_hasError : bool;
  l_originalWidth : Q;
  l_originalHeight : Q;
  l_scale : Q;
  l_loadedCount : Z;
  l_isLoading : bool;
  l_loadStartTime : Q
}.

(** What the host holds for this object: the size of the canvas, the
    animation-frame callbacks that are registered, the next handle
    [requestAnimationFrame] returns, the frame indices drawn so far (oldest
    first), the values passed to [updateProgress] so far (oldest first), and
    whether the progress bar is still in the document. *)
Record Host := {
  h_canvasWidth : Q;
  h_canvasHeight : Q;
  h_pending : gset nat;
  h_nextHandle : nat;
  h_drawn : list Z;
  h_progressReports : list Q;
  h_progressBar : bool
}.

Record FrameAnimator := {
  config : Config;
  playback : Playback;
  loading : Loading;
  host : Host
}.

Section Accessors.
Variable a : FrameAnimator.

Definition prefix := c_prefix (config a).
Definition frameCount := c_frameCount (config a).
Definition imagePath := c_imagePath (config a).
Definition digits := c_digits (config a).
Definition fps := c_fps (config a).
Definition loop := c_loop (config a).
Definition autoplay := c_autoplay (config a).
Definition playOnce := c_playOnce (config a).

Definition currentFrame := p_currentFrame (playback a).
Definition isPlaying := p_isPlaying (playback a).
Definition animationId := p_animationId (playback a).
Definition hasPlayed := p_hasPlayed (playback a).
Definition lastTime := p_lastTime (playback a).

Definition images := l_images (loading a).
Definition hasError := l_hasError (loading a).
Definition originalWidth := l_originalWidth (loading a).
Definition originalHeight := l_originalHeight (loading a).
Definition isLoading := l_isLoading (loading a).
Definition loadedCount := l_loadedCount (loading a).

Definition pending := h_pending (host a).
Definition drawn := h_drawn (host a).
Definition progressReports := h_progressReports (host a).
End Accessors.

(** Field assignments. *)
Definition with_playback (f : Playback -> Playback) (a : FrameAnimator) : FrameAnimator :=
  {| config := config a; playback := f (playback a); loading := loading a; host := host a |}.

Definition with_loading (f : Loading -> Loading) (a : FrameAnimator) : FrameAnimator :=
  {| config := config a; playback := playback a; loading := f (loading a); host := host a |}.

Definition with_host (f : Host -> Host) (a : FrameAnimator) : FrameAnimator :=
  {| config := config a; playback := playback a; loading := loading a; host := f (host a) |}.

Definition set_currentFrame (v : Z) : FrameAnimator -> FrameAnimator :=
  with_playback (fun p =>
    {| p_currentFrame := v; p_isPlaying := p_isPlaying p; p_animationId := p_animationId p;
       p_hasPlayed := p_hasPlayed p; p_lastTime := p_lastTime p |}).

Definition set_isPlaying (v : bool) : FrameAnimator -> FrameAnimator :=
  with_playback (fun p =>
    {| p_currentFrame := p_currentFrame p; p_isPlaying := v; p_animationId := p_animationId p;
       p_hasPlayed := p_hasPlayed p; p_lastTime := p_lastTime p |}).

Definition set_animationId (v : option nat) : FrameAnimator -> FrameAnimator :=
  with_playback (fun p =>
    {| p_currentFrame := p_currentFrame p; p_isPlaying := p_isPlaying p; p_animationId := v;
       p_hasPlayed := p_hasPlayed p; p_lastTime := p_lastTime p |}).

Definition set_hasPlayed (v : bool) : FrameAnimator -> FrameAnimator :=
  with_playback (fun p =>
    {| p_currentFrame := p_currentFrame p; p_isPlaying := p_isPlaying p;
       p_animationId := p_animationId p; p_hasPlayed := v; p_lastTime := p_lastTime p |}).

Definition set_lastTime (v : option Q) : FrameAnimator -> FrameAnimator :=
  with_playback (fun p =>
    {| p_currentFrame := p_currentFrame p; p_isPlaying := p_isPlaying p;
       p_animationId := p_animationId p; p_hasPlayed := p_hasPlayed p; p_lastTime := v |}).

Definition set_images (v : list (option Image)) : FrameAnimator -> FrameAnimator :=
  with_loading (fun l =>
    {| l_images := v; l_hasError := l_hasError l; l_originalWidth := l_originalWidth l;
       l_originalHeight := l_originalHeight l; l_scale := l_scale l;
       l_loadedCount := l_loadedCount l; l_isLoading := l_isLoading l;
       l_loadStartTime := l_loadStartTime l |}).

Definition set_hasError (v : bool) : FrameAnimator -> FrameAnimator :=
  with_loading (fun l =>
    {| l_images := l_images l; l_hasError := v; l_originalWidth := l_originalWidth l;
       l_originalHeight := l_originalHeight l; l_scale := l_scale l;
       l_loadedCount := l_loadedCount l; l_isLoading := l_isLoading l;
       l_loadStartTime := l_loadStartTime l |}).

Definition set_original (w h : Q) : FrameAnimator -> FrameAnimator :=
  with_loading (fun l =>
    {| l_images := l_images l; l_hasError := l_hasError l; l_originalWidth := w;
       l_originalHeight := h; l_scale := l_scale l;
       l_loadedCount := l_loadedCount l; l_isLoading := l_isLoading l;
       l_loadStartTime := l_loadStartTime l |}).

Definition set_scale (v : Q) : FrameAnimator -> FrameAnimator :=
  with_loading (fun l =>
    {| l_images := l_images l; l_hasError := l_hasError l; l_originalWidth := l_originalWidth l;
       l_originalHeight := l_originalHeight l; l_scale := v;
       l_loadedCount := l_loadedCount l; l_isLoading := l_isLoading l;
       l_loadStartTime := l_loadStartTime l |}).

Definition set_loadedCount (v : Z) : FrameAnimator -> FrameAnimator :=
  with_loading (fun l =>
    {| l_images := l_images l; l_hasError := l_hasError l; l_originalWidth := l_originalWidth l;
       l_originalHeight := l_originalHeight l; l_scale := l_scale l;
       l_loadedCount := v; l_isLoading := l_isLoading l;
       l_loadStartTime := l_loadStartTime l |}).

Definition set_isLoading (v : bool) : FrameAnimator -> FrameAnimator :=
  with_loading (fun l =>
    {| l_images := l_images l; l_hasError := l_hasError l; l_originalWidth := l_originalWidth l;
       l_originalHeight := l_originalHeight l; l_scale := l_scale l;
       l_loadedCount := l_loadedCount l; l_isLoading := v;
       l_loadStartTime := l_loadStartTime l |}).

Definition set_loadStartTime (v : Q) : FrameAnimator -> FrameAnimator :=
  with_loading (fun l =>
    {| l_images := l_images l; l_hasError := l_hasError l; l_originalWidth := l_originalWidth l;
       l_originalHeight := l_originalHeight l; l_scale := l_scale l;
       l_loadedCount := l_loadedCount l; l_isLoading := l_isLoading l;
       l_loadStartTime := v |}).

Definition set_canvasSize (w h : Q) : FrameAnimator -> FrameAnimator :=
  with_host (fun o =>
    {| h_canvasWidth := w; h_canvasHeight := h; h_pending := h_pending o;
       h_nextHandle := h_nextHandle o; h_drawn := h_drawn o;
       h_progressReports := h_progressReports o; h_progressBar := h_progressBar o |}).

Definition set_pending (v : gset nat) : FrameAnimator -> FrameAnimator :=
  with_host (fun o =>
    {| h_canvasWidth := h_canvasWidth o; h_canvasHeight := h_canvasHeight o; h_pending := v;
       h_nextHandle := h_nextHandle o; h_drawn := h_drawn o;
       h_progressReports := h_progressReports o; h_progressBar := h_progressBar o |}).

Definition set_nextHandle (v : nat) : FrameAnimator -> FrameAnimator :=
  with_host (fun o =>
    {| h_canvasWidth := h_canvasWidth o; h_canvasHeight := h_canvasHeight o;
       h_pending := h_pending o; h_nextHandle := v; h_drawn := h_drawn o;
       h_progressReports := h_progressReports o; h_progressBar := h_progressBar o |}).

Definition set_drawn (v : list Z) : FrameAnimator -> FrameAnimator :=
  with_host (fun o =>
    {| h_canvasWidth := h_canvasWidth o; h_canvasHeight := h_canvasHeight o;
       h_pending := h_pending o; h_nextHandle := h_nextHandle o; h_drawn := v;
       h_progressReports := h_progressReports o; h_progressBar := h_progressBar o |}).

Definition set_progressReports (v : list Q) : FrameAnimator -> FrameAnimator :=
  with_host (fun o =>
    {| h_canvasWidth := h_canvasWidth o; h_canvasHeight := h_canvasHeight o;
       h_pending := h_pending o; h_nextHandle := h_nextHandle o; h_drawn := h_drawn o;
       h_progressReports := v; h_progressBar := h_progressBar o |}).

Definition set_progressBar (v : bool) : FrameAnimator -> FrameAnimator :=
  with_host (fun o =>
    {| h_canvasWidth := h_canvasWidth o; h_canvasHeight := h_canvasHeight o;
       h_pending := h_pending o; h_nextHandle := h_nextHandle o; h_drawn := h_drawn o;
       h_progressReports := h_progressReports o; h_progressBar := v |}).

(* ================================================================== *)
(** * Path helpers *)
(* ================================================================== *)

Definition normalizePath (path : string) : string :=
  if Js.endsWith path "/" then path else path +:+ "/".

Definition getFramePath (a : FrameAnimator) (index : Z) : string :=
  let frameNum := Js.padStart (Js.toString index) (digits a) "0" in
  imagePath a +:+ prefix a +:+ "/" +:+ prefix a +:+ frameNum +:+ ".webp".

(* ================================================================== *)
(** * Construction *)
(* ================================================================== *)

Definition default_imagePath : string := "./media/imgOpt/".
Definition msg_canvas : string := "Canvas обязателен".
Definition msg_prefix : string := "Prefix обязателен".
Definition msg_frameCount : string := "Количество кадров обязательно".

(** The constructor up to the call of [init]; [env] is the host as the
    constructor finds it (canvas size, animation-frame registry).  The
    slots array is allocated from the [frameCount] option as given.  A
    canvas that is given is taken to be a canvas element with a parent
    node, so that [getContext] and [parentNode.appendChild] do not
    throw. *)
Definition constructor (env : Host) (options : Options) : Js.completion FrameAnimator :=
  match o_canvas options with
  | None => Js.Throw (Js.Error msg_canvas)
  | Some canvas =>
    if negb (Js.opt_truthy Js.string_truthy (o_prefix options))
    then Js.Throw (Js.Error msg_prefix)
    else if negb (Js.opt_truthy Js.number_truthy (o_frameCount options))
    then Js.Throw (Js.Error msg_frameCount)
    else
      match o_prefix options, o_frameCount options with
      | Some pre, Some (Js.Num count) =>
        match Js.new_array_fill count (@None Image) with
        | Js.Throw e => Js.Throw e
        | Js.Return slots =>
          Js.Return
            {| config :=
                 {| c_canvas := canvas;
                    c_prefix := pre;
                    c_frameCount := Qfloor count;
                    c_imagePath :=
                      normalizePath
                        (Js.or_default Js.string_truthy (o_imagePath options) default_imagePath);
                    c_digits :=
                      match Js.or_default Js.number_truthy (o_digits options) (Js.Num 3) with
                      | Js.Num d => d
                      | Js.NaN => 3
                      end;
                    c_fps :=
                      match Js.or_default Js.number_truthy (o_fps options) (Js.Num 24) with
                      | Js.Num f => f
                      | Js.NaN => 24
                      end;
                    c_loop := Js.not_false (o_loop options);
                    c_autoplay := Js.not_false (o_autoplay options);
                    c_debug := Js.or_default id (o_debug options) false;
                    c_playOnce := Js.or_default id (o_playOnce options) false |};
               playback :=
                 {| p_currentFrame := 0;
                    p_isPlaying := false;
                    p_animationId := None;
                    p_hasPlayed := false;
                    p_lastTime := None |};
               loading :=
                 {| l_images := slots;
                    l_hasError := false;
                    l_originalWidth := 0;
                    l_originalHeight := 0;
                    l_scale := 1;
                    l_loadedCount := 0;
                    l_isLoading := false;
                    l_loadStartTime := 0 |};
               host :=
                 {| h_canvasWidth := h_canvasWidth env;
                    h_canvasHeight := h_canvasHeight env;
                    h_pending := h_pending env;
                    h_nextHandle := h_nextHandle env;
                    h_drawn := h_drawn env;
                    h_progressReports := h_progressReports env;
                    h_progressBar := true |} |}
        end
      | _, _ => Js.Throw (Js.Error msg_frameCount)
      end
  end.

(* ================================================================== *)
(** * Playback *)
(* ================================================================== *)

(** [requestAnimationFrame(this.animate.bind(this))], its handle stored in
    [animationId]. *)
Definition requestAnimationFrame (a : FrameAnimator) : FrameAnimator :=
  let handle := h_nextHandle (host a) in
  set_animationId (Some handle)
    (set_nextHandle (S handle) (set_pending ({[ handle ]} ∪ pending a) a)).

Definition cancelAnimationFrame (handle : nat) (a : FrameAnimator) : FrameAnimator :=
  set_pending (pending a ∖ {[ handle ]}) a.

Definition play (now : Q) (a : FrameAnimator) : FrameAnimator :=
  if isPlaying a || hasError a || isLoading a then a
  else
    let a := set_currentFrame 0 a in
    let a := set_hasPlayed false a in
    let a := set_isPlaying true a in
    let a := set_lastTime (Some now) a in
    requestAnimationFrame a.

Definition playFromFrame (startFrame : Z) (now : Q) (a : FrameAnimator) : FrameAnimator :=
  if isPlaying a || hasError a || isLoading a then a
  else
    let startFrame := Z.max 0 (Z.min startFrame (frameCount a - 1)) in
    let a := set_currentFrame startFrame a in
    let a := set_hasPlayed false a in
    let a := set_isPlaying true a in
    let a := set_lastTime (Some now) a in
    requestAnimationFrame a.

Definition stop (a : FrameAnimator) : FrameAnimator :=
  let a := set_isPlaying false a in
  match animationId a with
  | Some handle => if (handle =? 0)%nat then a else cancelAnimationFrame handle a
  | None => a
  end.

(** [throws] tells whether the canvas primitives raise when this call
    draws; the [catch] clause then stops playback. *)
Definition renderFrame (throws : bool) (a : FrameAnimator) : FrameAnimator :=
  let a :=
    if negb (playOnce a) || negb (hasPlayed a) || loop a
    then set_currentFrame (Js.rem (currentFrame a + 1) (frameCount a)) a
    else a in
  match Js.index (images a) (currentFrame a) with
  | Some (Some img) =>
    if throws then stop a
    else set_drawn (drawn a ++ [currentFrame a]) a
  | _ => a
  end.

(** The frame interval [1000 / this.fps]. *)
Definition interval (a : FrameAnimator) : Q := Js.div 1000 (fps a).

Definition animate (timestamp : Q) (throws : bool) (a : FrameAnimator) : FrameAnimator :=
  if negb (isPlaying a) then a
  else if playOnce a && hasPlayed a then stop a
  else
    match lastTime a with
    | None => requestAnimationFrame a
    | Some last =>
      let delta := Js.sub timestamp last in
      if Js.gt delta (interval a) then
        let a := renderFrame throws a in
        let a := set_lastTime (Some (Js.sub timestamp (Js.fmod delta (interval a)))) a in
        if currentFrame a =? frameCount a - 1 then
          let a := set_hasPlayed true a in
          if playOnce a && negb (loop a) then stop a
          else requestAnimationFrame a
        else requestAnimationFrame a
      else requestAnimationFrame a
    end.

(* ================================================================== *)
(** * Sizing *)
(* ================================================================== *)

(** [containerWidth] and [containerHeight] are the [clientWidth] and
    [clientHeight] of the canvas's parent; the canvas size is kept as
    assigned. *)
Definition updateCanvasSize (containerWidth containerHeight : Q) (a : FrameAnimator)
  : FrameAnimator :=
  let widthRatio := Js.div containerWidth (originalWidth a) in
  let heightRatio := Js.div containerHeight (originalHeight a) in
  let a := set_scale (Qmin widthRatio heightRatio) a in
  set_canvasSize (Js.mul (originalWidth a) (l_scale (loading a)))
                 (Js.mul (originalHeight a) (l_scale (loading a))) a.

Definition handleResize (containerWidth containerHeight : Q) (throws : bool)
  (a : FrameAnimator) : FrameAnimator :=
  if negb (Js.Q_truthy (originalWidth a)) || negb (Js.Q_truthy (originalHeight a)) then a
  else renderFrame throws (updateCanvasSize containerWidth containerHeight a).

(* ================================================================== *)
(** * Loading *)
(* ================================================================== *)

Definition msg_load (frameNum : Z) : string :=
  "Ошибка загрузки кадра " +:+ Js.toString frameNum.

(** [decode] is the host's image decoder: the natural size of the image at
    a path, or [None] when fetching or decoding it fails. *)
Definition loadImage (decode : string -> option (Q * Q)) (a : FrameAnimator) (frameNum : Z)
  : Js.completion Image :=
  let path := getFramePath a frameNum in
  match decode path with
  | Some (w, h) => Js.Return {| src := path; naturalWidth := w; naturalHeight := h |}
  | None => Js.Throw (Js.Error (msg_load frameNum))
  end.

Definition loadFrame (decode : string -> option (Q * Q)) (frameNum : Z) (a : FrameAnimator)
  : FrameAnimator * Js.completion unit :=
  match Js.index (images a) (frameNum - 1) with
  | Some (Some _) => (a, Js.Return tt)
  | _ =>
    match loadImage decode a frameNum with
    | Js.Throw e => (a, Js.Throw e)
    | Js.Return img =>
      let a := set_images (Js.assign None (images a) (frameNum - 1) (Some img)) a in
      (set_loadedCount (loadedCount a + 1) a, Js.Return tt)
    end
  end.

(** [Promise.all] over [loadFrame(start + i)] for [i < n]: every frame of
    the batch that decodes is stored, and the batch fails when one of them
    does not (reported here: the lowest-numbered failure). *)
Fixpoint loadFrames (decode : string -> option (Q * Q)) (start : Z) (n : nat)
  (a : FrameAnimator) : FrameAnimator * Js.completion unit :=
  match n with
  | O => (a, Js.Return tt)
  | S n' =>
    let '(a1, r1) := loadFrame decode start a in
    let '(a2, r2) := loadFrames decode (start + 1) n' a1 in
    (a2, match r1 with Js.Throw e => Js.Throw e | Js.Return _ => r2 end)
  end.

Definition updateProgress (percent : Q) (a : FrameAnimator) : FrameAnimator :=
  set_progressReports (progressReports a ++ [percent]) a.

Definition batchSize : Z := 45.

(** The [for] loop of [loadAllFrames], [n] iterations away from its end. *)
Fixpoint loadBatches (decode : string -> option (Q * Q)) (totalBatches : Z) (n : nat)
  (batch : Z) (a : FrameAnimator) : FrameAnimator * Js.completion unit :=
  match n with
  | O => (a, Js.Return tt)
  | S n' =>
    let start := batch * batchSize + 1 in
    let end_ := Z.min ((batch + 1) * batchSize) (frameCount a) in
    match loadFrames decode start (Z.to_nat (end_ - start + 1)) a with
    | (a, Js.Throw e) => (a, Js.Throw e)
    | (a, Js.Return _) =>
      loadBatches decode totalBatches n' (batch + 1)
        (updateProgress (inject_Z (batch + 1) / inject_Z totalBatches)%Q a)
    end
  end.

Definition loadAllFrames (decode : string -> option (Q * Q)) (a : FrameAnimator)
  : FrameAnimator * Js.completion unit :=
  let totalBatches := Js.ceil (inject_Z (frameCount a) / inject_Z batchSize)%Q in
  loadBatches decode totalBatches (Z.to_nat totalBatches) 0 a.

Definition error (a : FrameAnimator) : FrameAnimator := set_hasError true a.

(** [init], run to its end: [loadStart] and [now] are the clock readings
    at the start of the load and at the autoplay.  The resize observer it
    installs shows as the [Resize] events of the event loop below. *)
Definition init (decode : string -> option (Q * Q)) (containerWidth containerHeight : Q)
  (loadStart now : Q) (a : FrameAnimator) : FrameAnimator :=
  match loadImage decode a 1 with
  | Js.Throw _ => error a
  | Js.Return firstFrame =>
    let a := set_original (naturalWidth firstFrame) (naturalHeight firstFrame) a in
    let a := updateCanvasSize containerWidth containerHeight a in
    let a := set_isLoading true a in
    let a := set_loadStartTime loadStart a in
    match loadAllFrames decode a with
    | (a, Js.Throw _) => error a
    | (a, Js.Return _) =>
      let a := set_isLoading false a in
      let a := set_progressBar false a in
      if autoplay a then play now a else a
    end
  end.

(* ================================================================== *)
(** * The host's event loop *)
(* ================================================================== *)

Inductive event :=
| Frame (handle : nat) (timestamp : Q) (throws : bool)
| Resize (containerWidth containerHeight : Q) (throws : bool)
| CallPlay (now : Q)
| CallPlayFrom (startFrame : Z) (now : Q)
| CallStop.

(** The host runs the callback registered under [handle], if there is
    one, and forgets it. *)
Definition fire (handle : nat) (timestamp : Q) (throws : bool) (a : FrameAnimator)
  : FrameAnimator :=
  if decide (handle ∈ pending a)
  then animate timestamp throws (set_pending (pending a ∖ {[ handle ]}) a)
  else a.

Definition step (e : event) (a : FrameAnimator) : FrameAnimator :=
  match e with
  | Frame handle timestamp throws => fire handle timestamp throws a
  | Resize w h throws => handleResize w h throws a
  | CallPlay now => play now a
  | CallPlayFrom startFrame now => playFromFrame startFrame now a
  | CallStop => stop a
  end.

Fixpoint run (es : list event) (a : FrameAnimator) : FrameAnimator :=
  match es with
  | [] => a
  | e :: es' => run es' (step e a)
  end.

(** Ticks delivered to [animate] whether or not they are still registered. *)
Fixpoint ticks (ts : list (Q * bool)) (a : FrameAnimator) : FrameAnimator :=
  match ts with
  | [] => a
  | (timestamp, throws) :: ts' => ticks ts' (animate timestamp throws a)
  end.

(* ================================================================== *)
(** * A sample session *)
(* ================================================================== *)

Definition env0 : Host :=
  {| h_canvasWidth := 300; h_canvasHeight := 150; h_pending := ∅; h_nextHandle := 1;
     h_drawn := []; h_progressReports := []; h_progressBar := false |}.

Definition sample_options (count : Q) (loop_ playOnce_ : bool) : Options :=
  {| o_canvas := Some 0%nat; o_prefix := Some "anim"; o_frameCount := Some (Js.Num count);
     o_imagePath := None; o_digits := None; o_fps := Some (Js.Num 25);
     o_loop := Some loop_; o_autoplay := Some false; o_debug := None;
     o_playOnce := Some playOnce_ |}.

(** Every image decodes, at 800 by 400. *)
Definition decode_all (path : string) : option (Q * Q) := Some (800%Q, 400%Q).

(** A constructed and fully loaded animator ([None] when construction
    throws). *)
Definition sample (count : Q) (loop_ playOnce_ : bool) : option FrameAnimator :=
  match constructor env0 (sample_options count loop_ playOnce_) with
  | Js.Return a => Some (init decode_all 400 300 0 0 a)
  | Js.Throw _ => None
  end.

(** The sample options at another frame rate. *)
Definition sample_options_at (rate count : Q) (loop_ playOnce_ : bool) : Options :=
  {| o_canvas := Some 0%nat; o_prefix := Some "anim"; o_frameCount := Some (Js.Num count);
     o_imagePath := None; o_digits := None; o_fps := Some (Js.Num rate);
     o_loop := Some loop_; o_autoplay := Some false; o_debug := None;
     o_playOnce := Some playOnce_ |}.

(** An inert object, the fallback of [fresh] and [ready]. *)
Definition blank : FrameAnimator :=
  {| config :=
       {| c_canvas := 0; c_prefix := "x"; c_frameCount := 1; c_imagePath := default_imagePath;
          c_digits := 3; c_fps := 24; c_loop := true; c_autoplay := true; c_debug := false;
          c_playOnce := false |};
     playback :=
       {| p_currentFrame := 0; p_isPlaying := false; p_animationId := None;
          p_hasPlayed := false; p_lastTime := None |};
     loading :=
       {| l_images := [None]; l_hasError := false; l_originalWidth := 0;
          l_originalHeight := 0; l_scale := 1; l_loadedCount := 0; l_isLoading := false;
          l_loadStartTime := 0 |};
     host := env0 |}.

Definition ready (count : Q) (loop_ playOnce_ : bool) : FrameAnimator :=
  default blank (sample count loop_ playOnce_).

(** A constructed and fully loaded animator at another frame rate. *)
Definition ready_at (rate count : Q) (loop_ playOnce_ : bool) : FrameAnimator :=
  match constructor env0 (sample_options_at rate count loop_ playOnce_) with
  | Js.Return a => init decode_all 400 300 0 0 a
  | Js.Throw _ => blank
  end.

(** A constructed animator, before [init] has loaded anything. *)
Definition fresh (count : Q) (loop_ playOnce_ : bool) : FrameAnimator :=
  match constructor env0 (sample_options count loop_ playOnce_) with
  | Js.Return a => a
  | Js.Throw _ => blank
  end.

(* ================================================================== *)
(** * The specification's wording, for comparison *)
(* ================================================================== *)

(** A frame number "zero-padded to digits": its decimal numeral, preceded
    by as many zeros as it is short of [width] characters. *)
Fixpoint zeros (k : nat) : string :=
  match k with
  | O => EmptyString
  | S k' => String "0" (zeros k')
  end.

Definition zero_padded (width : nat) (n : Z) : string :=
  let numeral := Js.toString n in
  zeros (width - String.length numeral) +:+ numeral.

(** [{imageBasePath}{namePrefix}/{namePrefix}{padded number}.{extension}] *)
Definition frame_path_spec (base pre : string) (width : nat) (n : Z) (ext : string) : string :=
  base +:+ pre +:+ "/" +:+ pre +:+ zero_padded width n +:+ "." +:+ ext.

(** The number of ['/'] characters a path ends with. *)
Fixpoint trailing_slashes (s : string) : nat :=
  match s with
  | EmptyString => 0
  | String c rest =>
    let k := trailing_slashes rest in
    if (k =? String.length rest)%nat && Ascii.eqb c "/" then S k else k
  end.


(** The play-once frozen condition of [renderFrame]. *)
Definition frozen (a : FrameAnimator) : bool :=
  playOnce a && hasPlayed a && negb (loop a).

(** Playing, with the next tick registered under the stored handle. *)
Definition armed (a : FrameAnimator) : Prop :=
  exists handle, animationId a = Some handle /\ handle ∈ pending a.

(** The events of a run in which nobody calls [stop] and no draw fails. *)
Definition undisturbed (e : event) : Prop :=
  match e with
  | Frame _ _ throws => throws = false
  | Resize _ _ throws => throws = false
  | CallPlay _ => True
  | CallPlayFrom _ _ => True
  | CallStop => False
  end.



(** What keeps a looping run going. *)
Definition looping (count : Z) (a : FrameAnimator) : Prop :=
  playOnce a = false /\ frameCount a = count /\ isPlaying a = true /\ armed a /\
  0 <= currentFrame a < count /\ exists last, lastTime a = Some last.


Definition falsy_options : Options :=
  {| o_canvas := Some 0%nat; o_prefix := Some "anim"%string;
     o_frameCount := Some (Js.Num 0); o_imagePath := Some EmptyString;
     o_digits := Some (Js.Num 0); o_fps := Some (Js.Num 0);
     o_loop := None; o_autoplay := None; o_debug := None; o_playOnce := None |}.

(** The click handler [initAll] installs on the block around a canvas:
    [if (animator.isPlaying) animator.stop(); animator.playFromFrame(28)]. *)
Definition click (now : Q) (a : FrameAnimator) : FrameAnimator :=
  let a := if isPlaying a then stop a else a in
  playFromFrame 28 now a.

(** Slot [i] of the frame set holds an image. *)
Definition loaded_at (a : FrameAnimator) (i : Z) : Prop :=
  exists img, Js.index (images a) i = Some (Some img).

Definition is_loaded (slot : option Image) : bool :=
  match slot with
  | Some _ => true
  | None => false
  end.

(** The number of slots that hold an image. *)
Definition count_loaded (slots : list (option Image)) : Z :=
  Z.of_nat (length (List.filter is_loaded slots)).

(** The animation-frame registry as the class means to keep it: a
    registered callback is the one whose handle is stored, and only a
    playing object has one; handles are positive and below the next one. *)
Definition tidy (a : FrameAnimator) : Prop :=
  (forall handle, handle ∈ pending a -> isPlaying a = true /\ animationId a = Some handle) /\
  (forall handle, animationId a = Some handle ->
     handle <> 0%nat /\ (handle < h_nextHandle (host a))%nat) /\
  (1 <= h_nextHandle (host a))%nat.

(** Events in which no draw fails. *)
Definition draws_succeed (e : event) : Prop :=
  match e with
  | Frame _ _ throws => throws = false
  | Resize _ _ throws => throws = false
  | _ => True
  end.

(* ================================================================== *)
(** * Proof support *)
(* ================================================================== *)

Ltac fields :=
  unfold frozen, armed, interval, prefix, frameCount, imagePath, digits, fps, loop, autoplay,
    playOnce, currentFrame, isPlaying, animationId, hasPlayed, lastTime, images, hasError,
    originalWidth, originalHeight, isLoading, loadedCount, pending, drawn, progressReports,
    set_currentFrame, set_isPlaying, set_animationId, set_hasPlayed, set_lastTime,
    set_images, set_hasError, set_original, set_scale, set_loadedCount, set_isLoading,
    set_loadStartTime, set_canvasSize, set_pending, set_nextHandle, set_drawn,
    set_progressReports, set_progressBar, with_playback, with_loading, with_host in *;
  cbn [config playback loading host
       p_currentFrame p_isPlaying p_animationId p_hasPlayed p_lastTime
       l_images l_hasError l_originalWidth l_originalHeight l_scale l_loadedCount
       l_isLoading l_loadStartTime
       h_canvasWidth h_canvasHeight h_pending h_nextHandle h_drawn h_progressReports
       h_progressBar] in *.

(* ================================================================== *)
(** * play and playFromFrame under their guard *)
(* ================================================================== *)







(* ================================================================== *)
(** * renderFrame *)
(* ================================================================== *)

Lemma stop_currentFrame (a : FrameAnimator) : currentFrame (stop a) = currentFrame a.
Proof.
  unfold stop, cancelAnimationFrame. fields.
  destruct (p_animationId (playback a)) as [handle|]; [destruct (handle =? 0)%nat|]; reflexivity.
Qed.

Lemma stop_drawn (a : FrameAnimator) : drawn (stop a) = drawn a.
Proof.
  unfold stop, cancelAnimationFrame. fields.
  destruct (p_animationId (playback a)) as [handle|]; [destruct (handle =? 0)%nat|]; reflexivity.
Qed.

Lemma stop_isPlaying (a : FrameAnimator) : isPlaying (stop a) = false.
Proof.
  unfold stop, cancelAnimationFrame. fields.
  destruct (p_animationId (playback a)) as [handle|]; [destruct (handle =? 0)%nat|]; reflexivity.
Qed.

Lemma stop_config (a : FrameAnimator) : config (stop a) = config a.
Proof.
  unfold stop, cancelAnimationFrame. fields.
  destruct (p_animationId (playback a)) as [handle|]; [destruct (handle =? 0)%nat|]; reflexivity.
Qed.

Lemma stop_loading (a : FrameAnimator) : loading (stop a) = loading a.
Proof.
  unfold stop, cancelAnimationFrame. fields.
  destruct (p_animationId (playback a)) as [handle|]; [destruct (handle =? 0)%nat|]; reflexivity.
Qed.

Lemma rem_is_mod (i n : Z) : 0 <= i -> 0 < n -> Js.rem (i + 1) n = (i + 1) mod n.
Proof. intros Hi Hn. unfold Js.rem. apply Z.rem_mod_nonneg; lia. Qed.

(** What one call of [renderFrame] does when the index is free to move:
    the index moves first, and the slot read is the one at the new index. *)
Lemma renderFrame_unfrozen (throws : bool) (a : FrameAnimator) :
  frozen a = false ->
  let next := Js.rem (currentFrame a + 1) (frameCount a) in
  currentFrame (renderFrame throws a) = next /\
  drawn (renderFrame throws a) =
    match Js.index (images a) next with
    | Some (Some _) => if throws then drawn a else drawn a ++ [next]
    | _ => drawn a
    end.
Proof.
  intros Hfree next. unfold renderFrame.
  assert (Hguard : negb (playOnce a) || negb (hasPlayed a) || loop a = true).
  { unfold frozen in Hfree.
    destruct (playOnce a), (hasPlayed a), (loop a); simpl in *; congruence. }
  rewrite Hguard. subst next. cbv zeta.
  set (a1 := set_currentFrame (Js.rem (currentFrame a + 1) (frameCount a)) a).
  change (currentFrame a1) with (Js.rem (currentFrame a + 1) (frameCount a)).
  change (images a1) with (images a).
  destruct (Js.index (images a) (Js.rem (currentFrame a + 1) (frameCount a)))
    as [[img|]|]; try (split; reflexivity).
  destruct throws.
  - rewrite stop_currentFrame, stop_drawn. split; reflexivity.
  - split; reflexivity.
Qed.

(** C9. Whenever the play-once frozen condition does not hold, a call of
    [renderFrame] moves [currentFrame] to [(currentFrame + 1) % frameCount]
    before it reads the slot: the index has moved when the slot is empty
    and nothing is drawn, when the draw fails, and when the call comes from
    [handleResize] (whatever [isPlaying] is); what is drawn, if anything,
    is the frame at the new index. *)
Theorem renderFrame_advances_before_lookup
  (a : FrameAnimator) (throws : bool) (containerWidth containerHeight : Q) :
  frozen a = false ->
  let next := Js.rem (currentFrame a + 1) (frameCount a) in
  (0 <= currentFrame a -> 0 < frameCount a -> next = (currentFrame a + 1) mod frameCount a) /\
  currentFrame (renderFrame throws a) = next /\
  (Js.index (images a) next = Some None \/ Js.index (images a) next = None ->
   currentFrame (renderFrame throws a) = next /\ drawn (renderFrame throws a) = drawn a) /\
  (forall img, Js.index (images a) next = Some (Some img) ->
   drawn (renderFrame false a) = drawn a ++ [next]) /\
  (Js.Q_truthy (originalWidth a) = true -> Js.Q_truthy (originalHeight a) = true ->
   currentFrame (handleResize containerWidth containerHeight throws a) = next).
Proof.
  intros Hfree next.
  destruct (renderFrame_unfrozen throws a Hfree) as [Hcur Hdraw].
  split; [intros; apply rem_is_mod; assumption|].
  split; [exact Hcur|].
  split; [|split].
  - intros Hslot. split; [exact Hcur|].
    rewrite Hdraw. fold next. destruct Hslot as [-> | ->]; reflexivity.
  - intros img Hslot.
    destruct (renderFrame_unfrozen false a Hfree) as [_ Hdraw'].
    rewrite Hdraw'. fold next. rewrite Hslot. reflexivity.
  - intros Hw Hh. unfold handleResize. rewrite Hw, Hh. simpl.
    apply (renderFrame_unfrozen throws (updateCanvasSize containerWidth containerHeight a)).
    exact Hfree.
Qed.

Lemma renderFrame_advances_before_lookup_witness :
  let a := stop (play 0 (ready 3 true false)) in
  let next := Js.rem (currentFrame a + 1) (frameCount a) in
  frozen a = false /\ isPlaying a = false /\
  (0 <= currentFrame a -> 0 < frameCount a -> next = (currentFrame a + 1) mod frameCount a) /\
  currentFrame (renderFrame false a) = next /\
  (Js.index (images a) next = Some None \/ Js.index (images a) next = None ->
   currentFrame (renderFrame false a) = next /\ drawn (renderFrame false a) = drawn a) /\
  (forall img, Js.index (images a) next = Some (Some img) ->
   drawn (renderFrame false a) = drawn a ++ [next]) /\
  (Js.Q_truthy (originalWidth a) = true -> Js.Q_truthy (originalHeight a) = true ->
   currentFrame (handleResize 200 100 false a) = next).
Proof.
  intros a. split; [reflexivity|]. split; [reflexivity|].
  apply (renderFrame_advances_before_lookup a false 200 100). reflexivity.
Defined.

(* ================================================================== *)
(** * Frame paths *)
(* ================================================================== *)

Lemma filler_zeros (cur : string) (n : nat) :
  cur = "0"%string \/ cur = EmptyString -> Js.filler "0" cur n = zeros n.
Proof.
  revert cur. induction n as [|n IH]; intros cur Hcur; [reflexivity|].
  destruct Hcur as [-> | ->]; simpl; f_equal; apply IH; auto.
Qed.

Lemma truncate_inject_Z (q : Q) (z : Z) : (q == inject_Z z)%Q -> Js.truncate q = z.
Proof.
  unfold Js.truncate, Qeq. simpl. intros H.
  rewrite Z.mul_1_r in H. rewrite H. apply Z.quot_mul. discriminate.
Qed.

Lemma padStart_zero_padded (n : Z) (width : nat) (d : Q) :
  (d == inject_Z (Z.of_nat width))%Q ->
  Js.padStart (Js.toString n) d "0" = zero_padded width n.
Proof.
  intros Hd. unfold Js.padStart, zero_padded, Js.ToLength.
  rewrite (truncate_inject_Z d _ Hd).
  set (numeral := Js.toString n).
  rewrite Z.max_r by lia.
  destruct (Z.leb_spec (Z.of_nat width) (Z.of_nat (String.length numeral))) as [Hle | Hlt].
  - replace (width - String.length numeral)%nat with 0%nat by lia. reflexivity.
  - simpl String.eqb. cbv iota.
    rewrite filler_zeros by auto.
    replace (Z.to_nat (Z.of_nat width - Z.of_nat (String.length numeral)))
      with (width - String.length numeral)%nat by lia.
    reflexivity.
Qed.

(** C7. The path of frame number [n] is the base path, the prefix, a
    slash, the prefix again, the number zero-padded to [digits] characters
    and the extension [.webp]; with three digits and prefix [anim], frame 5
    is [{base}anim/anim005.webp] and frame 90 is [{base}anim/anim090.webp]. *)
Theorem getFramePath_exact (a : FrameAnimator) (width : nat) (n : Z) :
  (digits a == inject_Z (Z.of_nat width))%Q ->
  getFramePath a n = frame_path_spec (imagePath a) (prefix a) width n "webp" /\
  (width = 3%nat -> prefix a = "anim"%string ->
   getFramePath a 5 = imagePath a +:+ "anim/anim005.webp" /\
   getFramePath a 90 = imagePath a +:+ "anim/anim090.webp").
Proof.
  intros Hd.
  assert (Hpath : forall m,
    getFramePath a m = frame_path_spec (imagePath a) (prefix a) width m "webp").
  { intros m. unfold getFramePath, frame_path_spec.
    rewrite (padStart_zero_padded m width (digits a) Hd). reflexivity. }
  split; [apply Hpath|].
  intros -> Hprefix. rewrite !Hpath, Hprefix. split; reflexivity.
Qed.

Lemma getFramePath_exact_witness :
  (digits (ready 90 true false) == inject_Z (Z.of_nat 3))%Q /\
  getFramePath (ready 90 true false) 5 = "./media/imgOpt/anim/anim005.webp"%string /\
  getFramePath (ready 90 true false) 90 = "./media/imgOpt/anim/anim090.webp"%string.
Proof.
  split; [reflexivity|].
  exact (proj2 (getFramePath_exact (ready 90 true false) 3 5 (Qeq_refl _)) eq_refl eq_refl).
Defined.

(* ================================================================== *)
(** * Path normalisation *)
(* ================================================================== *)

Lemma trailing_slashes_le (s : string) : (trailing_slashes s <= String.length s)%nat.
Proof.
  induction s as [|c s IH]; simpl; [lia|].
  destruct ((trailing_slashes s =? String.length s)%nat && Ascii.eqb c "/"); lia.
Qed.

Lemma trailing_slashes_snoc (s : string) :
  trailing_slashes (s +:+ "/") = S (trailing_slashes s).
Proof.
  induction s as [|c s IH]; [reflexivity|].
  change (String c s +:+ "/") with (String c (s +:+ "/")).
  cbn [trailing_slashes]. rewrite IH.
  replace (String.length (s +:+ "/")) with (S (String.length s)).
  2:{ clear. induction s as [|c s IH]; simpl; [reflexivity|]. f_equal. exact IH. }
  change (S (trailing_slashes s) =? S (String.length s))%nat
    with (trailing_slashes s =? String.length s)%nat.
  destruct ((trailing_slashes s =? String.length s)%nat && Ascii.eqb c "/"); reflexivity.
Qed.

Lemma endsWith_slash_cons (c : ascii) (s : string) :
  Js.endsWith (String c s) "/" =
  match s with
  | EmptyString => Ascii.eqb c "/"
  | String _ _ => Js.endsWith s "/"
  end.
Proof.
  unfold Js.endsWith. destruct s as [|c' s'].
  - simpl. destruct (Ascii.eqb c "/"); reflexivity.
  - cbn [String.length].
    change (S (S (String.length s')) <? 1)%nat with false.
    change (S (String.length s') <? 1)%nat with false.
    cbv iota.
    replace (S (S (String.length s')) - 1)%nat with (S (String.length s')) by lia.
    replace (S (String.length s') - 1)%nat with (String.length s') by lia.
    reflexivity.
Qed.

Lemma endsWith_slash_trailing (s : string) :
  Js.endsWith s "/" = (0 <? trailing_slashes s)%nat.
Proof.
  induction s as [|c s IH]; [reflexivity|].
  rewrite endsWith_slash_cons. cbn [trailing_slashes].
  destruct s as [|c' s'].
  - simpl. destruct (Ascii.eqb c "/"); reflexivity.
  - rewrite IH.
    pose proof (trailing_slashes_le (String c' s')) as Hle.
    set (k := trailing_slashes (String c' s')) in *.
    destruct (Nat.ltb_spec 0 k) as [Hpos | Hzero].
    + destruct ((k =? String.length (String c' s'))%nat && Ascii.eqb c "/");
        symmetry; apply Nat.ltb_lt; lia.
    + assert (Hk : k = 0%nat) by lia. rewrite Hk.
      simpl. reflexivity.
Qed.

(** C8, as the code has it. [normalizePath] returns a path that ends in
    ['/']: a path that already ends in ['/'] is returned unchanged, with
    all the slashes it ends with, and any other path gets exactly one ['/']
    appended. *)
Theorem normalizePath_trailing (path : string) :
  Js.endsWith (normalizePath path) "/" = true /\
  trailing_slashes (normalizePath path) = Nat.max 1 (trailing_slashes path) /\
  (Js.endsWith path "/" = true -> normalizePath path = path) /\
  (Js.endsWith path "/" = false -> normalizePath path = path +:+ "/").
Proof.
  unfold normalizePath.
  destruct (Js.endsWith path "/") eqn:Hend.
  - split; [exact Hend|]. split; [|split; [reflexivity | discriminate]].
    rewrite endsWith_slash_trailing in Hend. apply Nat.ltb_lt in Hend. lia.
  - split; [rewrite endsWith_slash_trailing, trailing_slashes_snoc; reflexivity|].
    split; [|split; [discriminate | reflexivity]].
    rewrite trailing_slashes_snoc.
    rewrite endsWith_slash_trailing in Hend. apply Nat.ltb_ge in Hend. lia.
Qed.

(** C8 as stated fails: a base path that ends in two slashes keeps both,
    also through the constructor. *)
Lemma normalizePath_keeps_double_slash :
  normalizePath "./media//" = "./media//"%string /\
  trailing_slashes (normalizePath "./media//") = 2%nat /\
  ~ (forall path, trailing_slashes (normalizePath path) = 1%nat) /\
  match constructor env0
          {| o_canvas := Some 0%nat; o_prefix := Some "anim"%string;
             o_frameCount := Some (Js.Num 3); o_imagePath := Some "./media//"%string;
             o_digits := None; o_fps := None; o_loop := None; o_autoplay := None;
             o_debug := None; o_playOnce := None |} with
  | Js.Return a => imagePath a = "./media//"%string
  | Js.Throw _ => False
  end.
Proof.
  split; [reflexivity|]. split; [reflexivity|]. split; [|reflexivity].
  intros Hall. specialize (Hall "./media//"%string). discriminate Hall.
Qed.

Lemma normalizePath_trailing_witness :
  trailing_slashes (normalizePath "./media/imgOpt") = 1%nat /\
  trailing_slashes (normalizePath "./media/imgOpt/") = 1%nat.
Proof.
  split.
  - exact (proj1 (proj2 (normalizePath_trailing "./media/imgOpt"))).
  - exact (proj1 (proj2 (normalizePath_trailing "./media/imgOpt/"))).
Defined.

(* ================================================================== *)
(** * Batched loading and its progress reports *)
(* ================================================================== *)











(** A hundred frames load in three batches. *)
Example progress_of_100_frames :
  progressReports (fst (loadAllFrames decode_all (fresh 100 true false))) =
    [(1 # 3)%Q; (2 # 3)%Q; (3 # 3)%Q] /\
  snd (loadAllFrames decode_all (fresh 100 true false)) = Js.Return tt.
Proof. split; reflexivity. Qed.

(** A frame of the second batch that does not decode: one report, no 1. *)
Example progress_of_failed_load :
  let decode path :=
    if String.eqb path "./media/imgOpt/anim/anim050.webp" then None else Some (800%Q, 400%Q) in
  progressReports (fst (loadAllFrames decode (fresh 100 true false))) = [(1 # 3)%Q] /\
  snd (loadAllFrames decode (fresh 100 true false)) = Js.Throw (Js.Error (msg_load 50)).
Proof. split; reflexivity. Qed.

(* ================================================================== *)
(** * Validation in the constructor *)
(* ================================================================== *)

Lemma Q_truthy_zero (q : Q) : (q == 0)%Q -> Js.Q_truthy q = false.
Proof.
  intros Hq. unfold Js.Q_truthy. apply negb_false_iff. apply Qeq_bool_iff. exact Hq.
Qed.

Lemma Q_truthy_nonzero (q : Q) : ~ (q == 0)%Q -> Js.Q_truthy q = true.
Proof.
  intros Hq. unfold Js.Q_truthy. apply negb_true_iff.
  destruct (Qeq_bool q 0) eqn:E; [|reflexivity].
  apply Qeq_bool_iff in E. contradiction.
Qed.

Lemma invalid_array_length (q : Q) :
  (q < 0)%Q \/ ~ (inject_Z (Qfloor q) == q)%Q -> Js.valid_array_length q = false.
Proof.
  intros [Hneg | Hfrac]; unfold Js.valid_array_length.
  - assert (Hfloor : Qfloor q < 0).
    { rewrite Zlt_Qlt. eapply Qle_lt_trans; [apply Qfloor_le | exact Hneg]. }
    apply Z.leb_gt in Hfloor. rewrite Hfloor, andb_false_r. reflexivity.
  - destruct (Qeq_bool (inject_Z (Qfloor q)) q) eqn:E; [|reflexivity].
    apply Qeq_bool_iff in E. contradiction.
Qed.

(** C10, as the code has it. The required options are checked for
    falsiness only: a [frameCount] of 0 raises the missing-frameCount
    error; a negative or fractional [frameCount] is never reported as
    missing, and construction then fails with a RangeError where the slot
    array is allocated; and an [fps] of 0, a [digits] of 0 or an empty
    [imagePath] is replaced by 24, 3 and the default directory. *)
Theorem constructor_checks_falsiness
  (env : Host) (options : Options) (canvas : nat) (pre : string) :
  o_canvas options = Some canvas ->
  o_prefix options = Some pre ->
  Js.string_truthy pre = true ->
  (forall q, o_frameCount options = Some (Js.Num q) -> (q == 0)%Q ->
     constructor env options = Js.Throw (Js.Error msg_frameCount)) /\
  (forall q, o_frameCount options = Some (Js.Num q) -> ~ (q == 0)%Q ->
     constructor env options <> Js.Throw (Js.Error msg_frameCount) /\
     ((q < 0)%Q \/ ~ (inject_Z (Qfloor q) == q)%Q ->
      constructor env options = Js.Throw Js.RangeError)) /\
  (forall a, constructor env options = Js.Return a ->
     (forall q, o_fps options = Some (Js.Num q) -> (q == 0)%Q -> fps a = 24%Q) /\
     (forall q, o_digits options = Some (Js.Num q) -> (q == 0)%Q -> digits a = 3%Q) /\
     (o_imagePath options = Some EmptyString -> imagePath a = default_imagePath)).
Proof.
  intros Hcanvas Hprefix Hpre. unfold constructor.
  rewrite Hcanvas, Hprefix. cbn [Js.opt_truthy]. rewrite Hpre. cbn [negb].
  split; [|split].
  - intros q Hcount Hzero. rewrite Hcount. cbn [Js.opt_truthy Js.number_truthy].
    rewrite (Q_truthy_zero q Hzero). reflexivity.
  - intros q Hcount Hnz. rewrite Hcount. cbn [Js.opt_truthy Js.number_truthy].
    rewrite (Q_truthy_nonzero q Hnz). cbn [negb]. unfold Js.new_array_fill. split.
    + destruct (Js.valid_array_length q); discriminate.
    + intros Hbad. rewrite (invalid_array_length q Hbad). reflexivity.
  - intros a Hret.
    destruct (o_frameCount options) as [[count|]|]; cbn [Js.opt_truthy Js.number_truthy] in Hret;
      try discriminate.
    destruct (Js.Q_truthy count); cbn [negb] in Hret; try discriminate.
    destruct (Js.new_array_fill count None) as [slots|e]; try discriminate.
    injection Hret as <-. unfold fps, digits, imagePath. cbn [config c_fps c_digits c_imagePath].
    split; [|split].
    + intros q -> Hzero. cbn [Js.or_default Js.number_truthy].
      rewrite (Q_truthy_zero q Hzero). reflexivity.
    + intros q -> Hzero. cbn [Js.or_default Js.number_truthy].
      rewrite (Q_truthy_zero q Hzero). reflexivity.
    + intros ->. reflexivity.
Qed.

Lemma constructor_checks_falsiness_witness :
  o_canvas falsy_options = Some 0%nat /\
  o_prefix falsy_options = Some "anim"%string /\
  Js.string_truthy "anim" = true /\
  constructor env0 falsy_options = Js.Throw (Js.Error msg_frameCount).
Proof.
  split; [reflexivity|]. split; [reflexivity|]. split; [reflexivity|].
  exact (proj1 (constructor_checks_falsiness env0 falsy_options 0 "anim" eq_refl eq_refl eq_refl)
           0%Q eq_refl (Qeq_refl 0)).
Defined.

(** C10 as stated fails: a negative and a fractional [frameCount] are not
    accepted, the constructor throws on both; the three falsy options are
    replaced by their defaults. *)
Lemma constructor_rejects_negative_frameCount :
  constructor env0 (sample_options (-1) true false) = Js.Throw Js.RangeError /\
  constructor env0 (sample_options (5 # 2) true false) = Js.Throw Js.RangeError /\
  ~ (forall count, (count < 0)%Q ->
       exists a, constructor env0 (sample_options count true false) = Js.Return a).
Proof.
  split; [reflexivity|]. split; [reflexivity|].
  intros Hall. destruct (Hall (-1)%Q eq_refl) as [a Ha]. discriminate Ha.
Qed.

Example constructor_defaults :
  match constructor env0
          {| o_canvas := Some 0%nat; o_prefix := Some "anim"%string;
             o_frameCount := Some (Js.Num 3); o_imagePath := Some EmptyString;
             o_digits := Some (Js.Num 0); o_fps := Some (Js.Num 0);
             o_loop := None; o_autoplay := None; o_debug := None; o_playOnce := None |} with
  | Js.Return a =>
    fps a = 24%Q /\ digits a = 3%Q /\ imagePath a = "./media/imgOpt/"%string /\
    loop a = true /\ autoplay a = true /\ playOnce a = false
  | Js.Throw _ => False
  end.
Proof. repeat split. Qed.

(* ================================================================== *)
(** * One clock tick *)
(* ================================================================== *)

Lemma gt_true (x y : Q) : Js.gt x y = true <-> (y < x)%Q.
Proof.
  unfold Js.gt. rewrite negb_true_iff. split.
  - intros Hle. apply Qnot_le_lt. intros H. apply Qle_bool_iff in H. congruence.
  - intros Hlt. destruct (Qle_bool x y) eqn:E; [|reflexivity].
    apply Qle_bool_iff in E. exfalso. exact (Qlt_not_le _ _ Hlt E).
Qed.

Lemma gt_false (x y : Q) : Js.gt x y = false <-> (x <= y)%Q.
Proof.
  unfold Js.gt. rewrite negb_false_iff. apply Qle_bool_iff.
Qed.

Lemma truncate_nonneg_floor (q : Q) : (0 <= q)%Q -> Js.truncate q = Qfloor q.
Proof.
  intros Hq. unfold Js.truncate. destruct q as [n d]. cbn.
  apply Z.quot_div_nonneg; [|lia].
  unfold Qle in Hq. cbn in Hq. lia.
Qed.

(** The residue [%] leaves, for a positive divisor. *)
Lemma fmod_bounds (x y : Q) :
  (0 <= x)%Q -> (0 < y)%Q -> (0 <= Js.fmod x y)%Q /\ (Js.fmod x y < y)%Q.
Proof.
  intros Hx Hy. unfold Js.fmod.
  assert (Hq : (0 <= x / y)%Q).
  { apply Qle_shift_div_l; [exact Hy|]. lra. }
  rewrite (truncate_nonneg_floor _ Hq).
  pose proof (Qfloor_le (x / y)) as Hlo.
  pose proof (Qlt_floor (x / y)) as Hhi.
  rewrite inject_Z_plus in Hhi.
  assert (Hxy : (x == y * (x / y))%Q).
  { symmetry. apply Qmult_div_r. lra. }
  set (q := (x / y)%Q) in *. set (f := inject_Z (Qfloor q)) in *.
  change (inject_Z 1) with 1%Q in Hhi.
  split; nra.
Qed.

Lemma stop_lastTime (a : FrameAnimator) : lastTime (stop a) = lastTime a.
Proof.
  unfold stop, cancelAnimationFrame. fields.
  destruct (p_animationId (playback a)) as [handle|]; [destruct (handle =? 0)%nat|]; reflexivity.
Qed.

Lemma stop_nextHandle (a : FrameAnimator) : h_nextHandle (host (stop a)) = h_nextHandle (host a).
Proof.
  unfold stop, cancelAnimationFrame. fields.
  destruct (p_animationId (playback a)) as [handle|]; [destruct (handle =? 0)%nat|]; reflexivity.
Qed.

Lemma stop_pending (a : FrameAnimator) : pending (stop a) ⊆ pending a.
Proof.
  unfold stop, cancelAnimationFrame. fields.
  destruct (p_animationId (playback a)) as [handle|]; [destruct (handle =? 0)%nat|];
    cbn; try reflexivity.
  intros x Hx. apply elem_of_difference in Hx. tauto.
Qed.

Lemma requestAnimationFrame_armed (a : FrameAnimator) : armed (requestAnimationFrame a).
Proof.
  exists (h_nextHandle (host a)). unfold requestAnimationFrame. fields.
  split; [reflexivity | set_solver].
Qed.

(** What [renderFrame] leaves alone. *)
Lemma renderFrame_keeps (throws : bool) (a : FrameAnimator) :
  config (renderFrame throws a) = config a /\
  loading (renderFrame throws a) = loading a /\
  lastTime (renderFrame throws a) = lastTime a /\
  hasPlayed (renderFrame throws a) = hasPlayed a /\
  h_nextHandle (host (renderFrame throws a)) = h_nextHandle (host a) /\
  pending (renderFrame throws a) ⊆ pending a /\
  (throws = false ->
   isPlaying (renderFrame throws a) = isPlaying a /\
   animationId (renderFrame throws a) = animationId a /\
   pending (renderFrame throws a) = pending a).
Proof.
  unfold renderFrame.
  set (a1 := if negb (playOnce a) || negb (hasPlayed a) || loop a
             then set_currentFrame (Js.rem (currentFrame a + 1) (frameCount a)) a else a).
  assert (H1 : config a1 = config a /\ loading a1 = loading a /\ lastTime a1 = lastTime a /\
               hasPlayed a1 = hasPlayed a /\ host a1 = host a /\
               isPlaying a1 = isPlaying a /\ animationId a1 = animationId a).
  { subst a1. destruct (negb (playOnce a) || negb (hasPlayed a) || loop a);
      repeat split; reflexivity. }
  destruct H1 as (Hc & Hl & Ht & Hp & Hh & Hi & Hid).
  cbv zeta.
  destruct (Js.index (images a1) (currentFrame a1)) as [[img|]|].
  - destruct throws.
    + rewrite stop_config, stop_loading, stop_lastTime, stop_nextHandle.
      repeat split; try congruence.
      * rewrite <- Hp. unfold stop, cancelAnimationFrame. fields.
        destruct (p_animationId (playback a1)) as [handle|];
          [destruct (handle =? 0)%nat|]; reflexivity.
      * etransitivity; [apply stop_pending|]. unfold pending. rewrite Hh. reflexivity.
    + unfold pending. fields. cbn. rewrite Hh.
      repeat split; try congruence; try reflexivity.
  - unfold pending. rewrite Hh. repeat split; try congruence; reflexivity.
  - unfold pending. rewrite Hh. repeat split; try congruence; reflexivity.
Qed.

(** A tick that comes too early only registers the next one. *)
Lemma animate_early (timestamp last : Q) (throws : bool) (a : FrameAnimator) :
  isPlaying a = true ->
  playOnce a && hasPlayed a = false ->
  lastTime a = Some last ->
  (Js.sub timestamp last <= interval a)%Q ->
  animate timestamp throws a = requestAnimationFrame a.
Proof.
  intros Hplay Honce Hlast Hdelta. unfold animate.
  rewrite Hplay, Honce, Hlast. cbn [negb].
  apply gt_false in Hdelta. rewrite Hdelta. reflexivity.
Qed.

(** A tick that comes late enough renders, stores the new [lastTime], and
    then either stops or registers the next tick. *)
Lemma animate_late (timestamp last : Q) (throws : bool) (a : FrameAnimator) :
  isPlaying a = true ->
  playOnce a && hasPlayed a = false ->
  lastTime a = Some last ->
  (interval a < Js.sub timestamp last)%Q ->
  let rendered :=
    set_lastTime (Some (Js.sub timestamp (Js.fmod (Js.sub timestamp last) (interval a))))
      (renderFrame throws a) in
  animate timestamp throws a =
    if currentFrame rendered =? frameCount rendered - 1 then
      if playOnce rendered && negb (loop rendered)
      then stop (set_hasPlayed true rendered)
      else requestAnimationFrame (set_hasPlayed true rendered)
    else requestAnimationFrame rendered.
Proof.
  intros Hplay Honce Hlast Hdelta rendered. unfold animate.
  rewrite Hplay, Honce, Hlast. cbn [negb].
  apply gt_true in Hdelta. rewrite Hdelta. cbv zeta.
  assert (Hint : interval (renderFrame throws a) = interval a).
  { unfold interval, fps. rewrite (proj1 (renderFrame_keeps throws a)). reflexivity. }
  rewrite Hint. reflexivity.
Qed.

Lemma unfrozen_of_not_completed (a : FrameAnimator) :
  playOnce a && hasPlayed a = false -> frozen a = false.
Proof. unfold frozen. intros ->. reflexivity. Qed.

(** The index, the drawing log and the stored time after a late tick. *)
Lemma animate_late_effect (timestamp last : Q) (throws : bool) (a : FrameAnimator) :
  isPlaying a = true ->
  playOnce a && hasPlayed a = false ->
  lastTime a = Some last ->
  (interval a < Js.sub timestamp last)%Q ->
  currentFrame (animate timestamp throws a) = currentFrame (renderFrame throws a) /\
  drawn (animate timestamp throws a) = drawn (renderFrame throws a) /\
  lastTime (animate timestamp throws a) =
    Some (Js.sub timestamp (Js.fmod (Js.sub timestamp last) (interval a))).
Proof.
  intros Hplay Honce Hlast Hdelta.
  rewrite (animate_late timestamp last throws a Hplay Honce Hlast Hdelta). cbv zeta.
  set (rendered := set_lastTime _ (renderFrame throws a)).
  destruct (currentFrame rendered =? frameCount rendered - 1);
    [destruct (playOnce rendered && negb (loop rendered))|];
    rewrite ?stop_currentFrame, ?stop_drawn, ?stop_lastTime;
    repeat split; reflexivity.
Qed.

Lemma requestAnimationFrame_keeps (a : FrameAnimator) :
  config (requestAnimationFrame a) = config a /\
  loading (requestAnimationFrame a) = loading a /\
  currentFrame (requestAnimationFrame a) = currentFrame a /\
  isPlaying (requestAnimationFrame a) = isPlaying a /\
  hasPlayed (requestAnimationFrame a) = hasPlayed a /\
  lastTime (requestAnimationFrame a) = lastTime a /\
  drawn (requestAnimationFrame a) = drawn a.
Proof. repeat split; reflexivity. Qed.

(** C4, as the code has it. One call of [animate] on a playing object
    that has not completed a play-once run, the elapsed time
    [timestamp - lastTime], the interval [1000 / fps] and the new
    [lastTime] being the doubles the code computes: when the elapsed time
    is at most the interval, the index, the canvas and [lastTime] stay as
    they are and the next tick is registered; when it is more than the
    interval, the index moves by exactly one (however many intervals have
    elapsed), at most one frame is drawn, and [lastTime] becomes
    [timestamp - (elapsed % interval)], the residue lying in
    [[0, interval)]. *)
Theorem animate_single_tick (a : FrameAnimator) (timestamp last : Q) (throws : bool) :
  isPlaying a = true ->
  playOnce a && hasPlayed a = false ->
  lastTime a = Some last ->
  let delta := Js.sub timestamp last in
  let a' := animate timestamp throws a in
  ((delta <= interval a)%Q ->
     currentFrame a' = currentFrame a /\ drawn a' = drawn a /\ lastTime a' = Some last /\
     isPlaying a' = true /\ armed a') /\
  ((interval a < delta)%Q ->
     let next := Js.rem (currentFrame a + 1) (frameCount a) in
     currentFrame a' = next /\
     (drawn a' = drawn a \/ drawn a' = drawn a ++ [next]) /\
     lastTime a' = Some (Js.sub timestamp (Js.fmod delta (interval a))) /\
     ((0 < interval a)%Q ->
      (0 <= Js.fmod delta (interval a))%Q /\ (Js.fmod delta (interval a) < interval a)%Q)).
Proof.
  intros Hplay Honce Hlast delta a'. split.
  - intros Hearly. subst a'.
    rewrite (animate_early timestamp last throws a Hplay Honce Hlast Hearly).
    destruct (requestAnimationFrame_keeps a) as (_ & _ & Hcur & Hp & _ & Ht & Hd).
    rewrite Hcur, Hd, Ht, Hp.
    repeat split; auto. apply requestAnimationFrame_armed.
  - intros Hlate next. subst a'.
    destruct (animate_late_effect timestamp last throws a Hplay Honce Hlast Hlate)
      as (Hcur & Hd & Ht).
    destruct (renderFrame_unfrozen throws a (unfrozen_of_not_completed a Honce))
      as (Hcur' & Hd').
    rewrite Hcur, Hd, Ht, Hcur', Hd'. fold next.
    split; [reflexivity|]. split; [|split; [reflexivity|]].
    + destruct (Js.index (images a) next) as [[img|]|]; auto.
      destruct throws; auto.
    + intros Hpos. apply fmod_bounds; [|exact Hpos].
      subst delta. lra.
Qed.

Lemma animate_single_tick_witness :
  let a := play 0 (ready 3 true false) in
  isPlaying a = true /\ playOnce a && hasPlayed a = false /\ lastTime a = Some 0%Q /\
  (interval a < Js.sub 92 0)%Q /\
  currentFrame (animate 92 false a) = Js.rem (currentFrame a + 1) (frameCount a) /\
  lastTime (animate 92 false a) = Some (Js.sub 92 (Js.fmod (Js.sub 92 0) (interval a))).
Proof.
  intros a.
  assert (Hplay : isPlaying a = true) by (vm_compute; reflexivity).
  assert (Honce : playOnce a && hasPlayed a = false) by (vm_compute; reflexivity).
  assert (Hlast : lastTime a = Some 0%Q) by (vm_compute; reflexivity).
  assert (Hlate : (interval a < Js.sub 92 0)%Q) by (vm_compute; reflexivity).
  split; [exact Hplay|]. split; [exact Honce|]. split; [exact Hlast|]. split; [exact Hlate|].
  destruct (proj2 (animate_single_tick a 92 0 false Hplay Honce Hlast) Hlate)
    as (Hcur & _ & Ht & _).
  split; [exact Hcur | exact Ht].
Defined.

(** C4 as stated fails when the elapsed time equals the interval: at 25
    frames per second a tick 40 ms after [play] neither advances nor
    draws. *)
Lemma animate_at_exact_interval_does_not_advance :
  let a := play 0 (ready 3 true false) in
  lastTime a = Some 0%Q /\
  (interval a == 40)%Q /\
  (interval a <= Js.sub 40 0)%Q /\
  currentFrame (animate 40 false a) = currentFrame a /\
  currentFrame (animate 40 false a) <> Js.rem (currentFrame a + 1) (frameCount a) /\
  drawn (animate 40 false a) = drawn a.
Proof.
  cbv zeta. split; [vm_compute; reflexivity|]. split; [vm_compute; reflexivity|].
  split; [vm_compute; discriminate|]. split; [vm_compute; reflexivity|].
  split; [vm_compute; discriminate | vm_compute; reflexivity].
Qed.

(** 2.3 intervals after [play]: one advance, and 0.3 of an interval
    (12 ms) carried over. *)
Example animate_after_2_3_intervals :
  let a := play 0 (ready 3 true false) in
  currentFrame (animate 92 false a) = 1 /\
  drawn (animate 92 false a) = [1] /\
  match lastTime (animate 92 false a) with
  | Some t => (t == 80)%Q
  | None => False
  end.
Proof.
  cbv zeta. split; [vm_compute; reflexivity|]. split; vm_compute; reflexivity.
Qed.

(** At 30 frames per second the interval is the double
    33.333333333333336; a tick 100 ms after [play] advances once and
    stores 66.66666666666667, and a tick exactly one interval after [play]
    does not advance. *)
Example animate_at_30_fps :
  let a := play 0 (ready_at 30 3 true false) in
  (interval a == 4691249611844267 # 140737488355328)%Q /\
  currentFrame (animate 100 false a) = 1 /\
  match lastTime (animate 100 false a) with
  | Some t => (t == 4691249611844267 # 70368744177664)%Q
  | None => False
  end /\
  currentFrame (animate (4691249611844267 # 140737488355328) false a) = 0 /\
  drawn (animate (4691249611844267 # 140737488355328) false a) = [].
Proof.
  cbv zeta. split; [vm_compute; reflexivity|]. split; [vm_compute; reflexivity|].
  split; [vm_compute; reflexivity|]. split; vm_compute; reflexivity.
Qed.

(* ================================================================== *)
(** * The order of advancing and drawing *)
(* ================================================================== *)

Lemma play_fresh (now : Q) (a : FrameAnimator) :
  isPlaying a = false -> hasError a = false -> isLoading a = false ->
  play now a =
    requestAnimationFrame
      (set_lastTime (Some now)
         (set_isPlaying true (set_hasPlayed false (set_currentFrame 0 a)))).
Proof. intros Hp He Hl. unfold play. rewrite Hp, He, Hl. reflexivity. Qed.

(** C1, as the code has it. A tick that comes more than one interval
    after [lastTime] first moves [currentFrame] to
    [(currentFrame + 1) % frameCount] and then draws the frame at the new
    index; so after a fresh [play()], which sets the index to 0, the first
    frame drawn is the one at index [1 % frameCount]: index 1 as soon as
    there are two frames. *)
Theorem tick_advances_then_draws (a : FrameAnimator) (timestamp now last : Q) :
  (isPlaying a = true -> playOnce a && hasPlayed a = false -> lastTime a = Some last ->
   (interval a < Js.sub timestamp last)%Q ->
   let next := Js.rem (currentFrame a + 1) (frameCount a) in
   currentFrame (animate timestamp false a) = next /\
   drawn (animate timestamp false a) =
     match Js.index (images a) next with
     | Some (Some _) => drawn a ++ [next]
     | _ => drawn a
     end) /\
  (isPlaying a = false -> hasError a = false -> isLoading a = false ->
   (interval a < Js.sub timestamp now)%Q ->
   let first := Js.rem 1 (frameCount a) in
   currentFrame (play now a) = 0 /\
   currentFrame (animate timestamp false (play now a)) = first /\
   drawn (animate timestamp false (play now a)) =
     match Js.index (images a) first with
     | Some (Some _) => drawn a ++ [first]
     | _ => drawn a
     end /\
   (2 <= frameCount a -> first = 1)).
Proof.
  assert (Htick : forall (b : FrameAnimator) (started : Q),
    isPlaying b = true -> playOnce b && hasPlayed b = false -> lastTime b = Some started ->
    (interval b < Js.sub timestamp started)%Q ->
    currentFrame (animate timestamp false b) = Js.rem (currentFrame b + 1) (frameCount b) /\
    drawn (animate timestamp false b) =
      match Js.index (images b) (Js.rem (currentFrame b + 1) (frameCount b)) with
      | Some (Some _) => drawn b ++ [Js.rem (currentFrame b + 1) (frameCount b)]
      | _ => drawn b
      end).
  { intros b started Hplay Honce Hlast Hlate.
    destruct (animate_late_effect timestamp started false b Hplay Honce Hlast Hlate)
      as (Hcur & Hd & _).
    destruct (renderFrame_unfrozen false b (unfrozen_of_not_completed b Honce))
      as (Hcur' & Hd').
    rewrite Hcur, Hd, Hcur', Hd'. split; reflexivity. }
  split.
  - intros Hplay Honce Hlast Hlate next. exact (Htick a last Hplay Honce Hlast Hlate).
  - intros Hp He Hl Hlate first.
    rewrite (play_fresh now a Hp He Hl).
    set (b := requestAnimationFrame _).
    split; [reflexivity|].
    assert (Hb : playOnce b && hasPlayed b = false) by apply andb_false_r.
    destruct (Htick b now eq_refl Hb eq_refl Hlate) as (Hcur & Hd).
    split; [exact Hcur|]. split; [exact Hd|].
    intros Hcount. subst first. unfold Js.rem. apply Z.rem_small. lia.
Qed.

Lemma tick_advances_then_draws_witness :
  let a := ready 3 true false in
  isPlaying a = false /\ hasError a = false /\ isLoading a = false /\
  (interval a < Js.sub 41 0)%Q /\
  currentFrame (play 0 a) = 0 /\
  currentFrame (animate 41 false (play 0 a)) = Js.rem 1 (frameCount a).
Proof.
  intros a.
  assert (Hp : isPlaying a = false) by (vm_compute; reflexivity).
  assert (He : hasError a = false) by (vm_compute; reflexivity).
  assert (Hl : isLoading a = false) by (vm_compute; reflexivity).
  assert (Hlate : (interval a < Js.sub 41 0)%Q) by (vm_compute; reflexivity).
  split; [exact Hp|]. split; [exact He|]. split; [exact Hl|]. split; [exact Hlate|].
  destruct (proj2 (tick_advances_then_draws a 41 0 0) Hp He Hl Hlate) as (H0 & H1 & _ & _).
  split; [exact H0 | exact H1].
Defined.

(** C1 as stated fails: after a fresh [play()] on three loaded frames the
    first tick draws the frame at index 1, and frame 0 has not been drawn. *)
Lemma first_frame_drawn_is_not_frame_0 :
  let a := ready 3 true false in
  drawn a = [] /\
  currentFrame (play 0 a) = 0 /\
  drawn (animate 41 false (play 0 a)) = [1] /\
  drawn (animate 41 false (play 0 a)) <> [0].
Proof.
  cbv zeta. split; [vm_compute; reflexivity|]. split; [vm_compute; reflexivity|].
  split; [vm_compute; reflexivity | vm_compute; discriminate].
Qed.

(* ================================================================== *)
(** * Play-once runs *)
(* ================================================================== *)

Lemma animate_not_playing (timestamp : Q) (throws : bool) (a : FrameAnimator) :
  isPlaying a = false -> animate timestamp throws a = a.
Proof. intros Hp. unfold animate. rewrite Hp. reflexivity. Qed.

Lemma ticks_not_playing (ts : list (Q * bool)) (a : FrameAnimator) :
  isPlaying a = false -> ticks ts a = a.
Proof.
  intros Hp. induction ts as [|[timestamp throws] ts IH]; [reflexivity|].
  cbn [ticks]. rewrite (animate_not_playing timestamp throws a Hp). exact IH.
Qed.








(* ================================================================== *)
(** * Looping runs *)
(* ================================================================== *)

Lemma rem_in_range (i n : Z) : 0 <= i -> 0 < n -> 0 <= Js.rem (i + 1) n < n.
Proof. intros Hi Hn. unfold Js.rem. apply Z.rem_bound_pos; lia. Qed.

(** A tick on a playing object that is not in play-once mode. *)
Lemma animate_looping (timestamp last : Q) (a : FrameAnimator) :
  playOnce a = false ->
  isPlaying a = true ->
  lastTime a = Some last ->
  config (animate timestamp false a) = config a /\
  isPlaying (animate timestamp false a) = true /\
  armed (animate timestamp false a) /\
  (exists last', lastTime (animate timestamp false a) = Some last') /\
  (currentFrame (animate timestamp false a) = currentFrame a \/
   currentFrame (animate timestamp false a) = Js.rem (currentFrame a + 1) (frameCount a)) /\
  ((interval a < Js.sub timestamp last)%Q ->
   currentFrame (animate timestamp false a) = Js.rem (currentFrame a + 1) (frameCount a)).
Proof.
  intros Honce Hplay Hlast.
  assert (Hguard : playOnce a && hasPlayed a = false) by (rewrite Honce; reflexivity).
  destruct (Qlt_le_dec (interval a) (Js.sub timestamp last)) as [Hlate | Hearly].
  - destruct (animate_late_effect timestamp last false a Hplay Hguard Hlast Hlate)
      as (Hcur & _ & Ht).
    destruct (renderFrame_unfrozen false a (unfrozen_of_not_completed a Hguard)) as (Hcur' & _).
    rewrite Hcur' in Hcur.
    pose proof (animate_late timestamp last false a Hplay Hguard Hlast Hlate) as Heq.
    cbv zeta in Heq.
    destruct (renderFrame_keeps false a) as (Hc & _ & _ & _ & _ & _ & Hsame).
    destruct (Hsame eq_refl) as (Hp & _ & _).
    set (rendered := set_lastTime _ (renderFrame false a)) in Heq.
    assert (Hrc : config rendered = config a) by exact Hc.
    assert (Hrp : isPlaying rendered = true) by (rewrite <- Hplay; exact Hp).
    assert (Hmode : playOnce rendered && negb (loop rendered) = false).
    { unfold playOnce. rewrite Hrc. fold (playOnce a). rewrite Honce. reflexivity. }
    rewrite Hmode in Heq.
    split; [|split; [|split; [|split; [|split]]]].
    + rewrite Heq. destruct (currentFrame rendered =? frameCount rendered - 1); exact Hrc.
    + rewrite Heq. destruct (currentFrame rendered =? frameCount rendered - 1); exact Hrp.
    + rewrite Heq. destruct (currentFrame rendered =? frameCount rendered - 1);
        apply requestAnimationFrame_armed.
    + eexists. exact Ht.
    + right. exact Hcur.
    + intros _. exact Hcur.
  - rewrite (animate_early timestamp last false a Hplay Hguard Hlast Hearly).
    split; [reflexivity|]. split; [exact Hplay|].
    split; [apply requestAnimationFrame_armed|].
    split; [exists last; exact Hlast|].
    split; [left; reflexivity|].
    intros Hlate. exfalso. exact (Qlt_not_le _ _ Hlate Hearly).
Qed.

Lemma looping_step (count : Z) (e : event) (a : FrameAnimator) :
  0 < count -> undisturbed e -> looping count a -> looping count (step e a).
Proof.
  intros Hcount He (Honce & Hfc & Hplay & Harmed & Hrange & last & Hlast).
  destruct e as [handle timestamp throws | w h throws | now | startFrame now |];
    cbn [step undisturbed] in *.
  - subst throws. unfold fire.
    destruct (decide (handle ∈ pending a)) as [Hin | Hout].
    2:{ repeat split; try assumption; try lia. exists last. exact Hlast. }
    set (b := set_pending (pending a ∖ {[handle]}) a).
    destruct (animate_looping timestamp last b Honce Hplay Hlast)
      as (Hc & Hp & Ha & Ht & Hcur & _).
    split; [unfold playOnce; rewrite Hc; exact Honce|].
    split; [unfold frameCount; rewrite Hc; exact Hfc|].
    split; [exact Hp|]. split; [exact Ha|]. split; [|exact Ht].
    change (currentFrame b) with (currentFrame a) in Hcur.
    change (frameCount b) with (frameCount a) in Hcur.
    destruct Hcur as [-> | ->]; [exact Hrange|].
    rewrite Hfc. apply rem_in_range; lia.
  - subst throws. unfold handleResize.
    destruct (negb (Js.Q_truthy (originalWidth a)) || negb (Js.Q_truthy (originalHeight a))).
    { repeat split; try assumption; try lia. exists last. exact Hlast. }
    set (b := updateCanvasSize w h a).
    assert (Hfree : frozen b = false) by (unfold frozen; change (playOnce b) with (playOnce a);
                                         rewrite Honce; reflexivity).
    destruct (renderFrame_unfrozen false b Hfree) as (Hcur & _).
    destruct (renderFrame_keeps false b) as (Hc & _ & Ht & _ & _ & _ & Hsame).
    destruct (Hsame eq_refl) as (Hp & Hid & Hpend).
    split; [unfold playOnce; rewrite Hc; exact Honce|].
    split; [unfold frameCount; rewrite Hc; exact Hfc|].
    split; [rewrite Hp; exact Hplay|]. split; [|split].
    + destruct Harmed as (handle & Hh & Hin). exists handle.
      rewrite Hid, Hpend. split; [exact Hh | exact Hin].
    + rewrite Hcur. change (currentFrame b) with (currentFrame a).
      change (frameCount b) with (frameCount a). rewrite Hfc. apply rem_in_range; lia.
    + exists last. rewrite Ht. exact Hlast.
  - unfold play. rewrite Hplay. cbn [orb].
    repeat split; try assumption; try lia. exists last. exact Hlast.
  - unfold playFromFrame. rewrite Hplay. cbn [orb].
    repeat split; try assumption; try lia. exists last. exact Hlast.
  - contradiction.
Qed.

Lemma looping_run (count : Z) (es : list event) :
  forall a : FrameAnimator,
    0 < count -> Forall undisturbed es -> looping count a -> looping count (run es a).
Proof.
  induction es as [|e es IH]; intros a Hcount Hes Hloop; [exact Hloop|].
  inversion Hes as [|e' es' He Hes']; subst.
  cbn [run]. apply IH; [exact Hcount | exact Hes' |].
  apply looping_step; assumption.
Qed.

(** C3, as the code has it. With [loop] set and play-once mode off, a
    playing object on which nobody calls [stop] and no draw fails is still
    playing after any run of frame callbacks, resizes and (ignored) calls
    of [play]; its next tick is registered; its index is within
    [[0, frameCount - 1]]; and the registered tick, once more than one
    interval has passed, moves the index to the next one, from
    [frameCount - 1] back to 0, and registers its successor. *)
Theorem loop_never_stops (a : FrameAnimator) (es : list event) (last0 : Q) :
  loop a = true ->
  playOnce a = false ->
  0 < frameCount a ->
  isPlaying a = true ->
  armed a ->
  0 <= currentFrame a < frameCount a ->
  lastTime a = Some last0 ->
  Forall undisturbed es ->
  let b := run es a in
  isPlaying b = true /\
  armed b /\
  0 <= currentFrame b < frameCount a /\
  exists handle last,
    animationId b = Some handle /\ handle ∈ pending b /\ lastTime b = Some last /\
    forall timestamp, (interval b < Js.sub timestamp last)%Q ->
      let c := fire handle timestamp false b in
      currentFrame c = (currentFrame b + 1) mod frameCount a /\
      (currentFrame b = frameCount a - 1 -> currentFrame c = 0) /\
      isPlaying c = true /\
      armed c.
Proof.
  intros _ Honce Hcount Hplay Harmed Hrange Hlast Hes b.
  assert (Hstart : looping (frameCount a) a).
  { repeat split; try assumption; try lia. exists last0. exact Hlast. }
  pose proof (looping_run (frameCount a) es a Hcount Hes Hstart) as Hb.
  fold b in Hb.
  destruct Hb as (Honce' & Hfc & Hplay' & Harmed' & Hrange' & last & Hlast').
  split; [exact Hplay'|]. split; [exact Harmed'|]. split; [exact Hrange'|].
  destruct Harmed' as (handle & Hid & Hin).
  exists handle, last. split; [exact Hid|]. split; [exact Hin|]. split; [exact Hlast'|].
  intros timestamp Hlate c. subst c. unfold fire.
  destruct (decide (handle ∈ pending b)) as [_ | Hout]; [|contradiction].
  set (b' := set_pending (pending b ∖ {[handle]}) b).
  destruct (animate_looping timestamp last b' Honce' Hplay' Hlast')
    as (_ & Hp & Ha & _ & _ & Hcur).
  specialize (Hcur Hlate).
  change (currentFrame b') with (currentFrame b) in Hcur.
  change (frameCount b') with (frameCount b) in Hcur.
  rewrite Hfc in Hcur. rewrite rem_is_mod in Hcur by lia.
  split; [exact Hcur|]. split; [|split; [exact Hp | exact Ha]].
  intros Hend. rewrite Hcur, Hend.
  replace (frameCount a - 1 + 1) with (frameCount a) by lia.
  apply Z.mod_same. lia.
Qed.

Lemma loop_never_stops_witness :
  let a := play 0 (ready 3 true false) in
  let es := [Frame 1 41 false; Resize 200 100 false; Frame 2 82 false; Frame 3 123 false] in
  loop a = true /\ playOnce a = false /\ 0 < frameCount a /\ isPlaying a = true /\
  armed a /\ 0 <= currentFrame a < frameCount a /\ lastTime a = Some 0%Q /\
  Forall undisturbed es /\
  isPlaying (run es a) = true /\ armed (run es a) /\
  0 <= currentFrame (run es a) < frameCount a.
Proof.
  intros a es.
  assert (Hloop : loop a = true) by (vm_compute; reflexivity).
  assert (Honce : playOnce a = false) by (vm_compute; reflexivity).
  assert (Hcount : 0 < frameCount a) by (vm_compute; reflexivity).
  assert (Hplay : isPlaying a = true) by (vm_compute; reflexivity).
  assert (Harmed : armed a).
  { exists 1%nat. split; [vm_compute; reflexivity|].
    apply elem_of_elements. vm_compute. left. }
  assert (Hrange : 0 <= currentFrame a < frameCount a) by (vm_compute; split; discriminate || reflexivity).
  assert (Hlast : lastTime a = Some 0%Q) by (vm_compute; reflexivity).
  assert (Hes : Forall undisturbed es) by (repeat (constructor; [reflexivity|]); constructor).
  split; [exact Hloop|]. split; [exact Honce|]. split; [exact Hcount|]. split; [exact Hplay|].
  split; [exact Harmed|]. split; [exact Hrange|]. split; [exact Hlast|]. split; [exact Hes|].
  destruct (loop_never_stops a es 0 Hloop Honce Hcount Hplay Harmed Hrange Hlast Hes)
    as (Hp & Ha & Hr & _).
  split; [exact Hp|]. split; [exact Ha | exact Hr].
Defined.

(** C3 as stated fails: with [loop] and [playOnce] both set, the tick
    after the one that shows the last frame stops the object, though
    nobody called [stop] and every draw succeeded. *)
Lemma loop_with_playOnce_stops :
  let a := play 0 (ready 3 true true) in
  let es := [Frame 1 41 false; Frame 2 82 false; Frame 3 123 false] in
  loop a = true /\ isPlaying a = true /\ Forall undisturbed es /\
  currentFrame (run es a) = 2 /\
  isPlaying (run es a) = false /\
  elements (pending (run es a)) = [].
Proof.
  cbv zeta.
  split; [vm_compute; reflexivity|]. split; [vm_compute; reflexivity|].
  split; [repeat (constructor; [reflexivity|]); constructor|].
  split; [vm_compute; reflexivity|]. split; vm_compute; reflexivity.
Qed.

(* ================================================================== *)
(** * Starting and stopping *)
(* ================================================================== *)

Lemma stop_hasPlayed (a : FrameAnimator) : hasPlayed (stop a) = hasPlayed a.
Proof.
  unfold stop, cancelAnimationFrame. fields.
  destruct (p_animationId (playback a)) as [handle|]; [destruct (handle =? 0)%nat|]; reflexivity.
Qed.

Lemma stop_animationId (a : FrameAnimator) : animationId (stop a) = animationId a.
Proof.
  unfold stop, cancelAnimationFrame. fields.
  destruct (p_animationId (playback a)) as [handle|]; [destruct (handle =? 0)%nat|]; reflexivity.
Qed.

Lemma stop_unregisters (a : FrameAnimator) (handle : nat) :
  animationId a = Some handle -> handle <> 0%nat -> handle ∉ pending (stop a).
Proof.
  intros Hid Hnz. unfold stop, cancelAnimationFrame. fields.
  rewrite Hid. destruct (Nat.eqb_spec handle 0) as [|_]; [contradiction|].
  cbn. intros Hin. apply elem_of_difference in Hin. destruct Hin as [_ Hout].
  apply Hout. apply elem_of_singleton. reflexivity.
Qed.

(** [playFromFrame(startFrame)] on an object that is free to play: the
    start index is [startFrame] clamped into [[0, frameCount - 1]]; the run
    starts with [hasPlayed] cleared, [lastTime] at the clock reading and
    the first tick registered; and [play()] is [playFromFrame(0)]. *)
Theorem playFromFrame_clamps (a : FrameAnimator) (startFrame : Z) (now : Q) :
  isPlaying a = false ->
  hasError a = false ->
  isLoading a = false ->
  0 < frameCount a ->
  let b := playFromFrame startFrame now a in
  0 <= currentFrame b < frameCount a /\
  (startFrame < 0 -> currentFrame b = 0) /\
  (frameCount a <= startFrame -> currentFrame b = frameCount a - 1) /\
  (0 <= startFrame < frameCount a -> currentFrame b = startFrame) /\
  isPlaying b = true /\ hasPlayed b = false /\ lastTime b = Some now /\ armed b /\
  play now a = playFromFrame 0 now a.
Proof.
  intros Hp He Hl Hcount b. subst b. unfold playFromFrame, play.
  rewrite Hp, He, Hl. cbn [orb]. cbv zeta.
  change (currentFrame (requestAnimationFrame ?x)) with (currentFrame x).
  split; [fields; lia|]. split; [fields; lia|]. split; [fields; lia|].
  split; [fields; lia|]. split; [reflexivity|]. split; [reflexivity|].
  split; [reflexivity|]. split; [apply requestAnimationFrame_armed|].
  replace (Z.max 0 (Z.min 0 (frameCount a - 1))) with 0 by lia. reflexivity.
Qed.

Lemma playFromFrame_clamps_witness :
  let a := ready 3 true false in
  isPlaying a = false /\ hasError a = false /\ isLoading a = false /\ 0 < frameCount a /\
  (frameCount a <= 28 -> currentFrame (playFromFrame 28 0 a) = frameCount a - 1) /\
  (-5 < 0 -> currentFrame (playFromFrame (-5) 0 a) = 0).
Proof.
  intros a.
  assert (Hp : isPlaying a = false) by (vm_compute; reflexivity).
  assert (He : hasError a = false) by (vm_compute; reflexivity).
  assert (Hl : isLoading a = false) by (vm_compute; reflexivity).
  assert (Hc : 0 < frameCount a) by (vm_compute; reflexivity).
  split; [exact Hp|]. split; [exact He|]. split; [exact Hl|]. split; [exact Hc|]. split.
  - exact (proj1 (proj2 (proj2 (playFromFrame_clamps a 28 0 Hp He Hl Hc)))).
  - exact (proj1 (proj2 (playFromFrame_clamps a (-5) 0 Hp He Hl Hc))).
Defined.

(** [stop()] keeps the position, clears the playing flag and takes the
    stored tick out of the registry: the host can no longer run it, a
    second [stop()] changes nothing, and calls of [animate] that still
    arrive leave the object as it is. *)
Theorem stop_cancels_the_tick (a : FrameAnimator) :
  currentFrame (stop a) = currentFrame a /\
  isPlaying (stop a) = false /\
  stop (stop a) = stop a /\
  (forall handle timestamp throws,
     animationId a = Some handle -> handle <> 0%nat ->
     fire handle timestamp throws (stop a) = stop a) /\
  (forall ts, ticks ts (stop a) = stop a).
Proof.
  split; [apply stop_currentFrame|]. split; [apply stop_isPlaying|].
  split; [|split].
  - unfold stop, cancelAnimationFrame. fields.
    destruct (p_animationId (playback a)) as [handle|] eqn:Hid;
      [destruct (handle =? 0)%nat eqn:Hz|]; cbn; fields; rewrite ?Hid, ?Hz; cbn;
      try reflexivity.
    fields. do 2 f_equal.
    assert (Hset : h_pending (host a) ∖ {[handle]} ∖ {[handle]} =
                   h_pending (host a) ∖ {[handle]}).
    { apply set_eq. intros x. rewrite !elem_of_difference. tauto. }
    rewrite Hset. reflexivity.
  - intros handle timestamp throws Hid Hnz. unfold fire.
    destruct (decide (handle ∈ pending (stop a))) as [Hin | _]; [|reflexivity].
    exfalso. exact (stop_unregisters a handle Hid Hnz Hin).
  - intros ts. apply ticks_not_playing. apply stop_isPlaying.
Qed.

Lemma stop_cancels_the_tick_witness :
  let a := play 0 (ready 3 true false) in
  animationId a = Some 1%nat /\
  fire 1 41 false (stop a) = stop a /\
  stop (stop a) = stop a.
Proof.
  intros a.
  assert (Hid : animationId a = Some 1%nat) by (vm_compute; reflexivity).
  split; [exact Hid|].
  destruct (stop_cancels_the_tick a) as (_ & _ & Hidem & Hfire & _).
  split; [|exact Hidem].
  apply Hfire; [exact Hid | discriminate].
Defined.

(** Normalising a base path twice is normalising it once. *)
Theorem normalizePath_idempotent (path : string) :
  normalizePath (normalizePath path) = normalizePath path.
Proof.
  unfold normalizePath at 1.
  destruct (Js.endsWith (normalizePath path) "/") eqn:Hend; [reflexivity|].
  unfold normalizePath in Hend.
  destruct (Js.endsWith path "/") eqn:Hp; [congruence|].
  rewrite endsWith_slash_trailing, trailing_slashes_snoc in Hend. discriminate.
Qed.

(* ================================================================== *)
(** * What the constructor returns *)
(* ================================================================== *)

(** The constructor reports missing options in a fixed order, whatever the
    other options are: the canvas first, then the prefix (missing or
    empty), then the frame count (missing, NaN or 0). *)
Theorem constructor_error_order (env : Host) (options : Options) :
  (o_canvas options = None ->
   constructor env options = Js.Throw (Js.Error msg_canvas)) /\
  (o_canvas options <> None ->
   Js.opt_truthy Js.string_truthy (o_prefix options) = false ->
   constructor env options = Js.Throw (Js.Error msg_prefix)) /\
  (o_canvas options <> None ->
   Js.opt_truthy Js.string_truthy (o_prefix options) = true ->
   Js.opt_truthy Js.number_truthy (o_frameCount options) = false ->
   constructor env options = Js.Throw (Js.Error msg_frameCount)).
Proof.
  unfold constructor. split; [|split].
  - intros ->. reflexivity.
  - intros Hc Hp. destruct (o_canvas options); [|contradiction]. rewrite Hp. reflexivity.
  - intros Hc Hp Hn. destruct (o_canvas options); [|contradiction]. rewrite Hp, Hn. reflexivity.
Qed.

Lemma constructor_error_order_witness :
  let options :=
    {| o_canvas := None; o_prefix := None; o_frameCount := None; o_imagePath := None;
       o_digits := None; o_fps := None; o_loop := None; o_autoplay := None;
       o_debug := None; o_playOnce := None |} in
  o_canvas options = None /\
  constructor env0 options = Js.Throw (Js.Error msg_canvas).
Proof.
  intros options. split; [reflexivity|].
  exact (proj1 (constructor_error_order env0 options) eq_refl).
Defined.

Lemma replicate_index {A} (n : nat) (x : A) (i : Z) :
  0 <= i < Z.of_nat n -> Js.index (replicate n x) i = Some x.
Proof.
  intros Hi. unfold Js.index. destruct (Z.ltb_spec i 0) as [|_]; [lia|].
  apply lookup_replicate_2. lia.
Qed.

Lemma normalizePath_ends_in_slash (path : string) :
  Js.endsWith (normalizePath path) "/" = true.
Proof.
  unfold normalizePath. destruct (Js.endsWith path "/") eqn:Hend; [exact Hend|].
  rewrite endsWith_slash_trailing, trailing_slashes_snoc. reflexivity.
Qed.

Lemma or_default_number_truthy (v : option Js.number) (d : Q) :
  Js.Q_truthy d = true ->
  Js.Q_truthy
    match Js.or_default Js.number_truthy v (Js.Num d) with
    | Js.Num f => f
    | Js.NaN => d
    end = true.
Proof.
  intros Hd. destruct v as [[q|]|]; cbn [Js.or_default Js.number_truthy]; try exact Hd.
  destruct (Js.Q_truthy q) eqn:Hq; [exact Hq | exact Hd].
Qed.

(** A constructed object: [frameCount] is the given count, a positive
    integer below [2^32]; there is one slot per frame and every slot is
    empty; nothing is playing, loading or in error; the index is 0 and no
    tick is stored; the base path ends in ['/']; [fps], [digits] and the
    prefix are truthy; and the frame dimensions are still 0. *)
Theorem constructor_initial_state (env : Host) (options : Options) (a : FrameAnimator) :
  constructor env options = Js.Return a ->
  0 < frameCount a < 2 ^ 32 /\
  (exists q, o_frameCount options = Some (Js.Num q) /\ (q == inject_Z (frameCount a))%Q) /\
  length (images a) = Z.to_nat (frameCount a) /\
  (forall i, 0 <= i < frameCount a -> Js.index (images a) i = Some None) /\
  isPlaying a = false /\ hasError a = false /\ isLoading a = false /\
  currentFrame a = 0 /\ animationId a = None /\ loadedCount a = 0 /\
  Js.endsWith (imagePath a) "/" = true /\
  Js.Q_truthy (fps a) = true /\ Js.Q_truthy (digits a) = true /\
  Js.string_truthy (prefix a) = true /\
  originalWidth a = 0%Q /\ originalHeight a = 0%Q.
Proof.
  unfold constructor.
  destruct (o_canvas options) as [canvas|]; [|discriminate].
  destruct (o_prefix options) as [pre|]; cbn [Js.opt_truthy negb]; [|discriminate].
  destruct (Js.string_truthy pre) eqn:Hpre; cbn [negb]; [|discriminate].
  destruct (o_frameCount options) as [[count|]|]; cbn [Js.opt_truthy Js.number_truthy negb];
    try discriminate.
  destruct (Js.Q_truthy count) eqn:Hcount; cbn [negb]; [|discriminate].
  unfold Js.new_array_fill.
  destruct (Js.valid_array_length count) eqn:Hvalid; [|discriminate].
  intros [= <-]. fields. cbn [c_frameCount c_imagePath c_fps c_digits c_prefix].
  unfold Js.valid_array_length in Hvalid.
  apply andb_prop in Hvalid as [Hvalid Hhi]. apply andb_prop in Hvalid as [Hint Hlo].
  apply Qeq_bool_iff in Hint. apply Z.leb_le in Hlo. apply Z.ltb_lt in Hhi.
  assert (Hnz : Qfloor count <> 0).
  { intros Hz. rewrite Hz in Hint.
    unfold Js.Q_truthy in Hcount. apply negb_true_iff in Hcount.
    assert (Heq : Qeq_bool count 0 = true) by (apply Qeq_bool_iff; rewrite <- Hint; reflexivity).
    congruence. }
  split; [lia|].
  split; [exists count; split; [reflexivity | symmetry; exact Hint]|].
  split; [apply length_replicate|].
  split; [intros i Hi; apply replicate_index; lia|].
  repeat (split; [reflexivity|]).
  split; [apply normalizePath_ends_in_slash|].
  split; [apply or_default_number_truthy; reflexivity|].
  split; [apply or_default_number_truthy; reflexivity|].
  split; [exact Hpre|]. split; reflexivity.
Qed.

Lemma constructor_initial_state_witness :
  constructor env0 (sample_options 90 true false) = Js.Return (fresh 90 true false) /\
  0 < frameCount (fresh 90 true false) < 2 ^ 32 /\
  length (images (fresh 90 true false)) = Z.to_nat (frameCount (fresh 90 true false)).
Proof.
  assert (Hc : constructor env0 (sample_options 90 true false) = Js.Return (fresh 90 true false))
    by (vm_compute; reflexivity).
  split; [exact Hc|].
  destruct (constructor_initial_state env0 _ _ Hc) as (Hrange & _ & Hlen & _).
  split; [exact Hrange | exact Hlen].
Defined.

(* ================================================================== *)
(** * What events can and cannot change *)
(* ================================================================== *)

Lemma renderFrame_effect (throws : bool) (a : FrameAnimator) :
  config (renderFrame throws a) = config a /\
  loading (renderFrame throws a) = loading a /\
  (currentFrame (renderFrame throws a) = currentFrame a \/
   currentFrame (renderFrame throws a) = Js.rem (currentFrame a + 1) (frameCount a)) /\
  (drawn (renderFrame throws a) = drawn a \/
   loaded_at a (currentFrame (renderFrame throws a)) /\
   drawn (renderFrame throws a) = drawn a ++ [currentFrame (renderFrame throws a)]).
Proof.
  destruct (renderFrame_keeps throws a) as (Hc & Hl & _).
  split; [exact Hc|]. split; [exact Hl|].
  unfold renderFrame.
  set (a1 := if negb (playOnce a) || negb (hasPlayed a) || loop a
             then set_currentFrame (Js.rem (currentFrame a + 1) (frameCount a)) a else a).
  assert (H1 : (currentFrame a1 = currentFrame a \/
                currentFrame a1 = Js.rem (currentFrame a + 1) (frameCount a)) /\
               images a1 = images a /\ drawn a1 = drawn a).
  { subst a1. destruct (negb (playOnce a) || negb (hasPlayed a) || loop a);
      (split; [|split; reflexivity]); [right | left]; reflexivity. }
  destruct H1 as (Hcur & Himg & Hd). cbv zeta.
  destruct (Js.index (images a1) (currentFrame a1)) as [[img|]|] eqn:Hslot.
  - destruct throws.
    + rewrite stop_currentFrame, stop_drawn. split; [exact Hcur | left; exact Hd].
    + change (currentFrame (set_drawn _ a1)) with (currentFrame a1).
      split; [exact Hcur|]. right. split.
      * exists img. rewrite <- Himg. exact Hslot.
      * change (drawn (set_drawn (drawn a1 ++ [currentFrame a1]) a1))
          with (drawn a1 ++ [currentFrame a1]).
        rewrite Hd. reflexivity.
  - split; [exact Hcur | left; exact Hd].
  - split; [exact Hcur | left; exact Hd].
Qed.

Lemma animate_effect (timestamp : Q) (throws : bool) (a : FrameAnimator) :
  config (animate timestamp throws a) = config a /\
  loading (animate timestamp throws a) = loading a /\
  (currentFrame (animate timestamp throws a) = currentFrame a \/
   currentFrame (animate timestamp throws a) = Js.rem (currentFrame a + 1) (frameCount a)) /\
  (drawn (animate timestamp throws a) = drawn a \/
   loaded_at a (currentFrame (animate timestamp throws a)) /\
   drawn (animate timestamp throws a) =
     drawn a ++ [currentFrame (animate timestamp throws a)]).
Proof.
  unfold animate.
  destruct (isPlaying a); cbn [negb]; [|repeat split; auto].
  destruct (playOnce a && hasPlayed a).
  { rewrite stop_config, stop_loading, stop_currentFrame, stop_drawn. repeat split; auto. }
  destruct (lastTime a) as [last|]; [|repeat split; auto].
  destruct (Js.gt (Js.sub timestamp last) (interval a)); [|repeat split; auto].
  cbv zeta.
  destruct (renderFrame_effect throws a) as (Hc & Hl & Hcur & Hd).
  set (r := renderFrame throws a) in *.
  set (r1 := set_lastTime _ r).
  destruct (currentFrame r1 =? frameCount r1 - 1);
    [destruct (playOnce (set_hasPlayed true r1) && negb (loop (set_hasPlayed true r1)))|];
    rewrite ?stop_config, ?stop_loading, ?stop_currentFrame, ?stop_drawn;
    (split; [exact Hc|]); (split; [exact Hl|]); (split; [exact Hcur | exact Hd]).
Qed.

Lemma images_of_loading (a b : FrameAnimator) :
  loading a = loading b ->
  images a = images b /\ hasError a = hasError b /\ isLoading a = isLoading b.
Proof. unfold images, hasError, isLoading. intros ->. repeat split. Qed.

Lemma loaded_at_images (a b : FrameAnimator) (i : Z) :
  images a = images b -> loaded_at a i -> loaded_at b i.
Proof. unfold loaded_at. intros ->. auto. Qed.

Lemma play_effect (now : Q) (a : FrameAnimator) :
  config (play now a) = config a /\ loading (play now a) = loading a /\
  drawn (play now a) = drawn a /\
  (currentFrame (play now a) = currentFrame a \/ currentFrame (play now a) = 0).
Proof.
  unfold play. destruct (isPlaying a || hasError a || isLoading a).
  - repeat split. left. reflexivity.
  - repeat split. right. reflexivity.
Qed.

Lemma playFromFrame_effect (startFrame : Z) (now : Q) (a : FrameAnimator) :
  config (playFromFrame startFrame now a) = config a /\
  loading (playFromFrame startFrame now a) = loading a /\
  drawn (playFromFrame startFrame now a) = drawn a /\
  (currentFrame (playFromFrame startFrame now a) = currentFrame a \/
   currentFrame (playFromFrame startFrame now a) =
     Z.max 0 (Z.min startFrame (frameCount a - 1))).
Proof.
  unfold playFromFrame. destruct (isPlaying a || hasError a || isLoading a).
  - repeat split. left. reflexivity.
  - repeat split. right. reflexivity.
Qed.

(** One event: the configuration, the frame set and the two flags stay;
    the index stays in range; at most one frame is drawn, a loaded one at
    the index the event leaves. *)
Lemma step_effect (e : event) (a : FrameAnimator) :
  0 < frameCount a ->
  0 <= currentFrame a < frameCount a ->
  config (step e a) = config a /\
  images (step e a) = images a /\
  hasError (step e a) = hasError a /\
  isLoading (step e a) = isLoading a /\
  0 <= currentFrame (step e a) < frameCount a /\
  (drawn (step e a) = drawn a \/
   loaded_at a (currentFrame (step e a)) /\
   drawn (step e a) = drawn a ++ [currentFrame (step e a)]).
Proof.
  intros Hcount Hrange.
  assert (Hmove : forall i,
    i = currentFrame a \/ i = Js.rem (currentFrame a + 1) (frameCount a) ->
    0 <= i < frameCount a).
  { intros i [-> | ->]; [exact Hrange | apply rem_in_range; lia]. }
  destruct e as [handle timestamp throws | w h throws | now | startFrame now |];
    cbn [step].
  - unfold fire. destruct (decide (handle ∈ pending a)); [|do 4 (split; [reflexivity|]); split; [exact Hrange | left; reflexivity]].
    set (b := set_pending (pending a ∖ {[handle]}) a).
    destruct (animate_effect timestamp throws b) as (Hc & Hl & Hcur & Hd).
    destruct (images_of_loading _ _ Hl) as (Hi & He & Hld).
    split; [exact Hc|]. split; [exact Hi|]. split; [exact He|]. split; [exact Hld|].
    split; [apply Hmove; exact Hcur | exact Hd].
  - unfold handleResize.
    destruct (negb (Js.Q_truthy (originalWidth a)) || negb (Js.Q_truthy (originalHeight a)));
      [do 4 (split; [reflexivity|]); split; [exact Hrange | left; reflexivity]|].
    set (b := updateCanvasSize w h a).
    destruct (renderFrame_effect throws b) as (Hc & Hl & Hcur & Hd).
    destruct (images_of_loading _ _ Hl) as (Hi & He & Hld).
    split; [exact Hc|]. split; [exact Hi|]. split; [exact He|]. split; [exact Hld|].
    split; [apply Hmove; exact Hcur | exact Hd].
  - destruct (play_effect now a) as (Hc & Hl & Hd & Hcur).
    destruct (images_of_loading _ _ Hl) as (Hi & He & Hld).
    split; [exact Hc|]. split; [exact Hi|]. split; [exact He|]. split; [exact Hld|].
    split; [|left; exact Hd].
    destruct Hcur as [-> | ->]; lia.
  - destruct (playFromFrame_effect startFrame now a) as (Hc & Hl & Hd & Hcur).
    destruct (images_of_loading _ _ Hl) as (Hi & He & Hld).
    split; [exact Hc|]. split; [exact Hi|]. split; [exact He|]. split; [exact Hld|].
    split; [|left; exact Hd].
    destruct Hcur as [-> | ->]; lia.
  - rewrite stop_config, stop_currentFrame, stop_drawn.
    destruct (images_of_loading _ _ (stop_loading a)) as (Hi & He & Hld).
    split; [reflexivity|]. split; [exact Hi|]. split; [exact He|]. split; [exact Hld|].
    split; [exact Hrange | left; reflexivity].
Qed.

(** Whatever the host and the page do, in whatever order and whether or
    not draws fail, the index stays within [[0, frameCount - 1]], and the
    configuration, the frame set and the error and loading flags are not
    touched. *)
Theorem run_keeps_index_in_range (es : list event) (a : FrameAnimator) :
  0 < frameCount a ->
  0 <= currentFrame a < frameCount a ->
  0 <= currentFrame (run es a) < frameCount a /\
  config (run es a) = config a /\
  images (run es a) = images a /\
  hasError (run es a) = hasError a /\
  isLoading (run es a) = isLoading a.
Proof.
  revert a. induction es as [|e es IH]; intros a Hcount Hrange.
  { split; [exact Hrange|]. repeat split. }
  cbn [run].
  destruct (step_effect e a Hcount Hrange) as (Hc & Hi & He & Hl & Hr & _).
  assert (Hfc : frameCount (step e a) = frameCount a) by (unfold frameCount; rewrite Hc; reflexivity).
  destruct (IH (step e a)) as (Hr' & Hc' & Hi' & He' & Hl').
  - rewrite Hfc. exact Hcount.
  - rewrite Hfc. exact Hr.
  - rewrite Hfc in Hr'. split; [exact Hr'|].
    split; [congruence|]. split; [congruence|]. split; congruence.
Qed.

Lemma run_keeps_index_in_range_witness :
  let a := ready 3 true false in
  let es := [CallPlayFrom 99 0; Frame 1 41 true; Resize 10 10 false; CallStop; CallPlay 50] in
  0 < frameCount a /\ 0 <= currentFrame a < frameCount a /\
  0 <= currentFrame (run es a) < frameCount a.
Proof.
  intros a es.
  assert (Hc : 0 < frameCount a) by (vm_compute; reflexivity).
  assert (Hr : 0 <= currentFrame a < frameCount a)
    by (vm_compute; split; discriminate || reflexivity).
  split; [exact Hc|]. split; [exact Hr|].
  exact (proj1 (run_keeps_index_in_range es a Hc Hr)).
Defined.

(** Only loaded frames reach the canvas: every index a run of events
    adds to the drawing log is the index of a slot that holds an image. *)
Theorem run_draws_only_loaded_frames (es : list event) (a : FrameAnimator) :
  0 < frameCount a ->
  0 <= currentFrame a < frameCount a ->
  exists added : list Z,
    drawn (run es a) = drawn a ++ added /\
    forall i, i ∈ added -> loaded_at a i /\ 0 <= i < frameCount a.
Proof.
  revert a. induction es as [|e es IH]; intros a Hcount Hrange.
  - exists []. split; [symmetry; apply app_nil_r|]. intros i Hi. inversion Hi.
  - cbn [run].
    destruct (step_effect e a Hcount Hrange) as (Hc & Hi & _ & _ & Hr & Hd).
    assert (Hfc : frameCount (step e a) = frameCount a)
      by (unfold frameCount; rewrite Hc; reflexivity).
    destruct (IH (step e a)) as (added & Hrun & Hadded);
      [rewrite Hfc; exact Hcount | rewrite Hfc; exact Hr |].
    assert (Hold : forall i, i ∈ added -> loaded_at a i /\ 0 <= i < frameCount a).
    { intros i Hin. destruct (Hadded i Hin) as [Hload Hin'].
      split; [exact (loaded_at_images _ _ i Hi Hload) | rewrite <- Hfc; exact Hin']. }
    destruct Hd as [Hd | [Hload Hd]].
    + exists added. rewrite Hrun, Hd. split; [reflexivity | exact Hold].
    + exists (currentFrame (step e a) :: added). rewrite Hrun, Hd, <- app_assoc.
      split; [reflexivity|].
      intros i Hin. apply elem_of_cons in Hin as [-> | Hin]; [|exact (Hold i Hin)].
      split; [exact Hload | exact Hr].
Qed.

Lemma run_draws_only_loaded_frames_witness :
  let a := ready 3 true false in
  let es := [CallPlay 0; Frame 1 41 false; Resize 10 10 false] in
  0 < frameCount a /\ 0 <= currentFrame a < frameCount a /\
  exists added : list Z,
    drawn (run es a) = drawn a ++ added /\
    forall i, i ∈ added -> loaded_at a i /\ 0 <= i < frameCount a.
Proof.
  intros a es.
  assert (Hc : 0 < frameCount a) by (vm_compute; reflexivity).
  assert (Hr : 0 <= currentFrame a < frameCount a)
    by (vm_compute; split; discriminate || reflexivity).
  split; [exact Hc|]. split; [exact Hr|].
  exact (run_draws_only_loaded_frames es a Hc Hr).
Defined.

(* ================================================================== *)
(** * Objects that may not play *)
(* ================================================================== *)

Lemma renderFrame_not_playing (throws : bool) (a : FrameAnimator) :
  isPlaying a = false -> isPlaying (renderFrame throws a) = false.
Proof.
  intros Hp. unfold renderFrame.
  set (a1 := if negb (playOnce a) || negb (hasPlayed a) || loop a
             then set_currentFrame (Js.rem (currentFrame a + 1) (frameCount a)) a else a).
  assert (H1 : isPlaying a1 = false).
  { subst a1. destruct (negb (playOnce a) || negb (hasPlayed a) || loop a); exact Hp. }
  cbv zeta. destruct (Js.index (images a1) (currentFrame a1)) as [[img|]|]; try exact H1.
  destruct throws; [apply stop_isPlaying | exact H1].
Qed.

Lemma blocked_step (e : event) (a : FrameAnimator) :
  hasError a = true \/ isLoading a = true ->
  isPlaying a = false ->
  isPlaying (step e a) = false /\
  hasError (step e a) = hasError a /\ isLoading (step e a) = isLoading a /\
  h_nextHandle (host (step e a)) = h_nextHandle (host a) /\
  pending (step e a) ⊆ pending a.
Proof.
  intros Hflag Hp.
  destruct e as [handle timestamp throws | w h throws | now | startFrame now |];
    cbn [step].
  - unfold fire. destruct (decide (handle ∈ pending a)); [|repeat split; auto].
    rewrite animate_not_playing by exact Hp.
    split; [exact Hp|]. do 3 (split; [reflexivity|]).
    intros x Hx. apply elem_of_difference in Hx. tauto.
  - unfold handleResize.
    destruct (negb (Js.Q_truthy (originalWidth a)) || negb (Js.Q_truthy (originalHeight a)));
      [repeat split; auto|].
    set (b := updateCanvasSize w h a).
    destruct (renderFrame_keeps throws b) as (_ & Hl & _ & _ & Hn & Hpend & _).
    destruct (images_of_loading _ _ Hl) as (_ & He & Hld).
    split; [apply renderFrame_not_playing; exact Hp|].
    split; [exact He|]. split; [exact Hld|]. split; [exact Hn | exact Hpend].
  - unfold play.
    assert (Hg : isPlaying a || hasError a || isLoading a = true)
      by (destruct Hflag as [-> | ->]; rewrite ?orb_true_r; reflexivity).
    rewrite Hg. repeat split; auto.
  - unfold playFromFrame.
    assert (Hg : isPlaying a || hasError a || isLoading a = true)
      by (destruct Hflag as [-> | ->]; rewrite ?orb_true_r; reflexivity).
    rewrite Hg. repeat split; auto.
  - destruct (images_of_loading _ _ (stop_loading a)) as (_ & He & Hld).
    split; [apply stop_isPlaying|]. split; [exact He|]. split; [exact Hld|].
    split; [apply stop_nextHandle | apply stop_pending].
Qed.

(** While the error flag or the loading flag is set, nothing starts
    playback: after any run of ticks, resizes and calls of [play],
    [playFromFrame] and [stop], the object is not playing and no tick has
    been registered. *)
Theorem flagged_object_never_plays (es : list event) (a : FrameAnimator) :
  hasError a = true \/ isLoading a = true ->
  isPlaying a = false ->
  isPlaying (run es a) = false /\
  h_nextHandle (host (run es a)) = h_nextHandle (host a) /\
  pending (run es a) ⊆ pending a.
Proof.
  revert a. induction es as [|e es IH]; intros a Hflag Hp; [repeat split; auto|].
  cbn [run].
  destruct (blocked_step e a Hflag Hp) as (Hp' & He & Hl & Hn & Hpend).
  destruct (IH (step e a)) as (Hp'' & Hn' & Hpend').
  - rewrite He, Hl. exact Hflag.
  - exact Hp'.
  - split; [exact Hp''|]. split; [congruence|]. etransitivity; eassumption.
Qed.

Lemma flagged_object_never_plays_witness :
  let a := error (ready 3 true false) in
  let es := [CallPlay 0; Frame 1 41 false; CallPlayFrom 2 50; Resize 10 10 false] in
  (hasError a = true \/ isLoading a = true) /\ isPlaying a = false /\
  isPlaying (run es a) = false.
Proof.
  intros a es.
  assert (Hflag : hasError a = true \/ isLoading a = true) by (left; vm_compute; reflexivity).
  assert (Hp : isPlaying a = false) by (vm_compute; reflexivity).
  split; [exact Hflag|]. split; [exact Hp|].
  exact (proj1 (flagged_object_never_plays es a Hflag Hp)).
Defined.

(* ================================================================== *)
(** * A draw that fails *)
(* ================================================================== *)

Lemma renderFrame_throws (a : FrameAnimator) :
  frozen a = false ->
  loaded_at a (Js.rem (currentFrame a + 1) (frameCount a)) ->
  renderFrame true a = stop (set_currentFrame (Js.rem (currentFrame a + 1) (frameCount a)) a).
Proof.
  intros Hfree [img Hslot]. unfold renderFrame.
  assert (Hguard : negb (playOnce a) || negb (hasPlayed a) || loop a = true).
  { unfold frozen in Hfree.
    destruct (playOnce a), (hasPlayed a), (loop a); simpl in *; congruence. }
  rewrite Hguard. cbv zeta.
  set (a1 := set_currentFrame (Js.rem (currentFrame a + 1) (frameCount a)) a).
  change (currentFrame a1) with (Js.rem (currentFrame a + 1) (frameCount a)).
  change (images a1) with (images a).
  rewrite Hslot. reflexivity.
Qed.

(** A draw that fails during a tick ends the run, not the session: the
    index has moved, nothing is drawn, playback is off and stays off
    (further calls of [animate] change nothing), the error flag is as it
    was, and a later [play()] starts again from index 0. *)
Theorem failed_draw_stops_playback_only (a : FrameAnimator) (timestamp last : Q) :
  isPlaying a = true ->
  playOnce a && hasPlayed a = false ->
  lastTime a = Some last ->
  (interval a < Js.sub timestamp last)%Q ->
  loaded_at a (Js.rem (currentFrame a + 1) (frameCount a)) ->
  let b := animate timestamp true a in
  isPlaying b = false /\
  currentFrame b = Js.rem (currentFrame a + 1) (frameCount a) /\
  drawn b = drawn a /\
  hasError b = hasError a /\ isLoading b = isLoading a /\
  (forall ts, ticks ts b = b) /\
  (hasError a = false -> isLoading a = false ->
   forall now, isPlaying (play now b) = true /\ currentFrame (play now b) = 0 /\
               hasPlayed (play now b) = false).
Proof.
  intros Hplay Honce Hlast Hlate Hslot b.
  pose proof (renderFrame_throws a (unfrozen_of_not_completed a Honce) Hslot) as Hr.
  destruct (animate_late_effect timestamp last true a Hplay Honce Hlast Hlate)
    as (Hcur & Hd & _).
  rewrite Hr, stop_currentFrame in Hcur. rewrite Hr, stop_drawn in Hd.
  destruct (animate_effect timestamp true a) as (_ & Hl & _).
  destruct (images_of_loading _ _ Hl) as (_ & He & Hld).
  assert (Hstopped : isPlaying b = false).
  { subst b. rewrite (animate_late timestamp last true a Hplay Honce Hlast Hlate). cbv zeta.
    set (rendered := set_lastTime _ (renderFrame true a)).
    assert (Hrp : isPlaying rendered = false).
    { subst rendered. change (isPlaying (set_lastTime ?v ?x)) with (isPlaying x).
      rewrite Hr. apply stop_isPlaying. }
    destruct (currentFrame rendered =? frameCount rendered - 1);
      [destruct (playOnce rendered && negb (loop rendered))|];
      try apply stop_isPlaying; exact Hrp. }
  split; [exact Hstopped|]. split; [exact Hcur|]. split; [exact Hd|].
  split; [exact He|]. split; [exact Hld|].
  split; [intros ts; apply ticks_not_playing; exact Hstopped|].
  intros Hne Hnl now.
  assert (Heb : hasError b = false) by (unfold b; rewrite He; exact Hne).
  assert (Hlb : isLoading b = false) by (unfold b; rewrite Hld; exact Hnl).
  rewrite (play_fresh now b Hstopped Heb Hlb). repeat split.
Qed.

Lemma failed_draw_stops_playback_only_witness :
  let a := play 0 (ready 3 true false) in
  isPlaying a = true /\ playOnce a && hasPlayed a = false /\ lastTime a = Some 0%Q /\
  (interval a < Js.sub 41 0)%Q /\
  loaded_at a (Js.rem (currentFrame a + 1) (frameCount a)) /\
  isPlaying (animate 41 true a) = false /\
  drawn (animate 41 true a) = drawn a.
Proof.
  intros a.
  assert (Hplay : isPlaying a = true) by (vm_compute; reflexivity).
  assert (Honce : playOnce a && hasPlayed a = false) by (vm_compute; reflexivity).
  assert (Hlast : lastTime a = Some 0%Q) by (vm_compute; reflexivity).
  assert (Hlate : (interval a < Js.sub 41 0)%Q) by (vm_compute; reflexivity).
  assert (Hslot : loaded_at a (Js.rem (currentFrame a + 1) (frameCount a)))
    by (eexists; vm_compute; reflexivity).
  split; [exact Hplay|]. split; [exact Honce|]. split; [exact Hlast|].
  split; [exact Hlate|]. split; [exact Hslot|].
  destruct (failed_draw_stops_playback_only a 41 0 Hplay Honce Hlast Hlate Hslot)
    as (Hp & _ & Hd & _).
  split; [exact Hp | exact Hd].
Defined.

(* ================================================================== *)
(** * One tick at a time *)
(* ================================================================== *)

Lemma tidy_same (a b : FrameAnimator) :
  tidy a ->
  isPlaying b = isPlaying a -> animationId b = animationId a ->
  pending b = pending a -> h_nextHandle (host b) = h_nextHandle (host a) ->
  tidy b.
Proof.
  intros (H1 & H2 & H3) Hp Hid Hpend Hn. unfold tidy.
  rewrite Hp, Hid, Hpend, Hn. exact (conj H1 (conj H2 H3)).
Qed.

Lemma tidy_idle (a : FrameAnimator) (handle : nat) :
  tidy a -> isPlaying a = false -> handle ∉ pending a.
Proof. intros (H1 & _) Hp Hin. destruct (H1 handle Hin) as [Hplay _]. congruence. Qed.

Lemma requestAnimationFrame_tidy (a : FrameAnimator) :
  (forall handle, handle ∉ pending a) ->
  (1 <= h_nextHandle (host a))%nat ->
  isPlaying a = true ->
  tidy (requestAnimationFrame a).
Proof.
  intros Hempty Hn Hp. unfold tidy, requestAnimationFrame. fields. split; [|split].
  - intros handle Hin. apply elem_of_union in Hin as [Hin | Hin].
    + apply elem_of_singleton in Hin. subst handle. split; [exact Hp | reflexivity].
    + exfalso. exact (Hempty handle Hin).
  - intros handle [= <-]. lia.
  - lia.
Qed.

Lemma stop_tidy (a : FrameAnimator) : tidy a -> tidy (stop a).
Proof.
  intros (H1 & H2 & H3). unfold tidy.
  rewrite stop_isPlaying, stop_animationId, stop_nextHandle.
  split; [|split; [exact H2 | exact H3]].
  intros handle Hin. exfalso.
  pose proof (stop_pending a handle Hin) as Hin'.
  destruct (H1 handle Hin') as [_ Hid].
  destruct (H2 handle Hid) as [Hnz _].
  exact (stop_unregisters a handle Hid Hnz Hin).
Qed.

Lemma animate_tidy (timestamp : Q) (a : FrameAnimator) :
  tidy a -> (forall handle, handle ∉ pending a) -> tidy (animate timestamp false a).
Proof.
  intros Ht Hempty. pose proof Ht as (_ & _ & Hn). unfold animate.
  destruct (isPlaying a) eqn:Hp; cbn [negb]; [|exact Ht].
  destruct (playOnce a && hasPlayed a); [apply stop_tidy; exact Ht|].
  destruct (lastTime a) as [last|]; [|apply requestAnimationFrame_tidy; assumption].
  destruct (Js.gt (Js.sub timestamp last) (interval a));
    [|apply requestAnimationFrame_tidy; assumption].
  cbv zeta.
  destruct (renderFrame_keeps false a) as (_ & _ & _ & _ & Hnext & _ & Hsame).
  destruct (Hsame eq_refl) as (Hrp & Hrid & Hrpend).
  set (r := renderFrame false a) in *.
  set (r1 := set_lastTime _ r).
  assert (Ht1 : tidy r1) by (apply (tidy_same a); assumption).
  assert (He1 : forall handle, handle ∉ pending r1).
  { intros handle. change (pending r1) with (pending r). rewrite Hrpend. apply Hempty. }
  assert (Hp1 : isPlaying r1 = true) by (change (isPlaying r) with (isPlaying r1) in Hrp; congruence).
  assert (Hn1 : (1 <= h_nextHandle (host r1))%nat) by (destruct Ht1 as (_ & _ & H); exact H).
  destruct (currentFrame r1 =? frameCount r1 - 1);
    [destruct (playOnce (set_hasPlayed true r1) && negb (loop (set_hasPlayed true r1)))|].
  - apply stop_tidy. apply (tidy_same r1); auto.
  - apply requestAnimationFrame_tidy; assumption.
  - apply requestAnimationFrame_tidy; assumption.
Qed.

Lemma tidy_step (e : event) (a : FrameAnimator) :
  draws_succeed e -> tidy a -> tidy (step e a).
Proof.
  intros He Ht.
  destruct e as [handle timestamp throws | w h throws | now | startFrame now |];
    cbn [step draws_succeed] in *.
  - subst throws. unfold fire.
    destruct (decide (handle ∈ pending a)) as [Hin | _]; [|exact Ht].
    set (b := set_pending (pending a ∖ {[handle]}) a).
    assert (Hempty : forall x, x ∉ pending b).
    { intros x Hx. change (pending b) with (pending a ∖ {[handle]}) in Hx.
      apply elem_of_difference in Hx as [Hx Hne].
      destruct Ht as (H1 & _).
      destruct (H1 x Hx) as [_ Hidx]. destruct (H1 handle Hin) as [_ Hidh].
      apply Hne. apply elem_of_singleton. congruence. }
    apply animate_tidy; [|exact Hempty].
    destruct Ht as (H1 & H2 & H3). split; [|split; [exact H2 | exact H3]].
    intros x Hx. exfalso. exact (Hempty x Hx).
  - subst throws. unfold handleResize.
    destruct (negb (Js.Q_truthy (originalWidth a)) || negb (Js.Q_truthy (originalHeight a)));
      [exact Ht|].
    set (b := updateCanvasSize w h a).
    destruct (renderFrame_keeps false b) as (_ & _ & _ & _ & Hnext & _ & Hsame).
    destruct (Hsame eq_refl) as (Hrp & Hrid & Hrpend).
    apply (tidy_same a); assumption.
  - unfold play. destruct (isPlaying a) eqn:Hp; cbn [orb]; [exact Ht|].
    destruct (hasError a || isLoading a); [exact Ht|]. cbv zeta.
    apply requestAnimationFrame_tidy.
    + intros x. apply (tidy_idle a x Ht Hp).
    + destruct Ht as (_ & _ & H3). exact H3.
    + reflexivity.
  - unfold playFromFrame. destruct (isPlaying a) eqn:Hp; cbn [orb]; [exact Ht|].
    destruct (hasError a || isLoading a); [exact Ht|]. cbv zeta.
    apply requestAnimationFrame_tidy.
    + intros x. apply (tidy_idle a x Ht Hp).
    + destruct Ht as (_ & _ & H3). exact H3.
    + reflexivity.
  - apply stop_tidy. exact Ht.
Qed.

Lemma constructor_tidy (env : Host) (options : Options) (a : FrameAnimator) :
  constructor env options = Js.Return a ->
  h_pending env = ∅ -> (1 <= h_nextHandle env)%nat -> tidy a.
Proof.
  unfold constructor.
  destruct (o_canvas options) as [canvas|]; [|discriminate].
  destruct (o_prefix options) as [pre|]; cbn [Js.opt_truthy negb]; [|discriminate].
  destruct (Js.string_truthy pre); cbn [negb]; [|discriminate].
  destruct (o_frameCount options) as [[count|]|]; cbn [Js.opt_truthy Js.number_truthy negb];
    try discriminate.
  destruct (Js.Q_truthy count); cbn [negb]; [|discriminate].
  destruct (Js.new_array_fill count None) as [slots|]; [|discriminate].
  intros [= <-] Hpend Hn. unfold tidy. fields. rewrite Hpend. split; [|split].
  - intros handle Hin. apply elem_of_empty in Hin. contradiction.
  - discriminate.
  - exact Hn.
Qed.

(** As long as no draw fails, the object has at most one animation-frame
    callback registered, whatever ticks, resizes and calls of [play],
    [playFromFrame] and [stop] arrive and in whatever order: a registered
    callback is the one whose handle is stored, and there is none unless
    the object is playing.  A constructed object starts out this way when
    the registry it finds is empty. *)
Theorem one_tick_at_a_time (es : list event) (a : FrameAnimator) :
  tidy a ->
  Forall draws_succeed es ->
  tidy (run es a) /\
  (forall h1 h2, h1 ∈ pending (run es a) -> h2 ∈ pending (run es a) -> h1 = h2) /\
  (isPlaying (run es a) = false -> pending (run es a) = ∅).
Proof.
  intros Ht Hes.
  assert (Hrun : tidy (run es a)).
  { revert a Ht. induction Hes as [|e es He Hes IH]; intros a Ht; [exact Ht|].
    cbn [run]. apply IH. apply tidy_step; assumption. }
  split; [exact Hrun|]. split.
  - intros h1 h2 Hin1 Hin2. destruct Hrun as (H1 & _).
    destruct (H1 h1 Hin1) as [_ Hid1]. destruct (H1 h2 Hin2) as [_ Hid2]. congruence.
  - intros Hp. apply set_eq. intros x. split; [|intros Hx; apply elem_of_empty in Hx; contradiction].
    intros Hx. exfalso. exact (tidy_idle _ x Hrun Hp Hx).
Qed.

Lemma one_tick_at_a_time_witness :
  let a := fresh 3 true false in
  let es := [CallPlay 0; Frame 1 41 false; CallStop; CallPlayFrom 2 50; Resize 10 10 false] in
  tidy a /\ Forall draws_succeed es /\
  (forall h1 h2, h1 ∈ pending (run es a) -> h2 ∈ pending (run es a) -> h1 = h2).
Proof.
  intros a es.
  assert (Ht : tidy a).
  { apply (constructor_tidy env0 (sample_options 3 true false));
      [vm_compute; reflexivity | reflexivity | simpl; lia]. }
  assert (Hes : Forall draws_succeed es) by (repeat constructor).
  split; [exact Ht|]. split; [exact Hes|].
  exact (proj1 (proj2 (one_tick_at_a_time es a Ht Hes))).
Defined.

(* ================================================================== *)
(** * The click handler *)
(* ================================================================== *)

(** A click on the block around the canvas, on a loaded object without
    error: whatever it was doing, the object is then playing from index
    [min(28, frameCount - 1)] with [hasPlayed] cleared and [lastTime] at
    the clock reading; and when the registry was in order before, the tick
    the click registers is the only one. *)
Theorem click_restarts_from_frame_28 (a : FrameAnimator) (now : Q) :
  hasError a = false ->
  isLoading a = false ->
  0 < frameCount a ->
  let b := click now a in
  isPlaying b = true /\
  currentFrame b = Z.min 28 (frameCount a - 1) /\
  hasPlayed b = false /\ lastTime b = Some now /\ armed b /\
  (tidy a -> tidy b /\ pending b = {[ h_nextHandle (host a) ]}).
Proof.
  intros He Hl Hcount b. subst b. unfold click. cbv zeta.
  set (a1 := if isPlaying a then stop a else a).
  assert (H1 : isPlaying a1 = false /\ hasError a1 = false /\ isLoading a1 = false /\
               frameCount a1 = frameCount a /\
               h_nextHandle (host a1) = h_nextHandle (host a) /\
               (tidy a -> tidy a1)).
  { subst a1. destruct (isPlaying a) eqn:Hp.
    - destruct (images_of_loading _ _ (stop_loading a)) as (_ & He' & Hl').
      split; [apply stop_isPlaying|]. split; [congruence|]. split; [congruence|].
      split; [unfold frameCount; rewrite stop_config; reflexivity|].
      split; [apply stop_nextHandle | apply stop_tidy].
    - split; [exact Hp|]. split; [exact He|]. split; [exact Hl|].
      split; [reflexivity|]. split; [reflexivity|]. intros Ht. exact Ht. }
  destruct H1 as (Hp1 & He1 & Hl1 & Hfc & Hn & Ht1).
  unfold playFromFrame. rewrite Hp1, He1, Hl1. cbn [orb]. cbv zeta. rewrite Hfc.
  split; [reflexivity|].
  split; [change (currentFrame (requestAnimationFrame ?x)) with (currentFrame x);
          change (Z.max 0 (Z.min 28 (frameCount a - 1)) = Z.min 28 (frameCount a - 1)); lia|].
  split; [reflexivity|]. split; [reflexivity|].
  split; [apply requestAnimationFrame_armed|].
  intros Ht. specialize (Ht1 Ht).
  set (a2 := set_lastTime _ _).
  assert (Hempty : forall x, x ∉ pending a2).
  { intros x. change (pending a2) with (pending a1). exact (tidy_idle a1 x Ht1 Hp1). }
  split.
  - apply requestAnimationFrame_tidy; [exact Hempty | | reflexivity].
    change (h_nextHandle (host a2)) with (h_nextHandle (host a1)).
    destruct Ht1 as (_ & _ & H3). exact H3.
  - change (pending (requestAnimationFrame a2))
      with ({[ h_nextHandle (host a1) ]} ∪ pending a1).
    rewrite Hn. apply set_eq. intros x. rewrite elem_of_union. split.
    + intros [Hx | Hx]; [exact Hx|]. exfalso. exact (tidy_idle a1 x Ht1 Hp1 Hx).
    + intros Hx. left. exact Hx.
Qed.

Lemma click_restarts_from_frame_28_witness :
  let a := play 0 (ready 90 true false) in
  hasError a = false /\ isLoading a = false /\ 0 < frameCount a /\
  isPlaying (click 7 a) = true /\
  currentFrame (click 7 a) = Z.min 28 (frameCount a - 1).
Proof.
  intros a.
  assert (He : hasError a = false) by (vm_compute; reflexivity).
  assert (Hl : isLoading a = false) by (vm_compute; reflexivity).
  assert (Hc : 0 < frameCount a) by (vm_compute; reflexivity).
  split; [exact He|]. split; [exact Hl|]. split; [exact Hc|].
  destruct (click_restarts_from_frame_28 a 7 He Hl Hc) as (Hp & Hcur & _).
  split; [exact Hp | exact Hcur].
Defined.

(* ================================================================== *)
(** * A whole play-once run *)
(* ================================================================== *)

Lemma once_tick (timestamp : Q) (n : Z) (k : nat) (b : FrameAnimator) :
  playOnce b = true -> loop b = false -> frameCount b = n ->
  (forall i, 0 <= i < n -> loaded_at b i) ->
  isPlaying b = true -> hasPlayed b = false -> (exists last, lastTime b = Some last) ->
  currentFrame b = Z.of_nat k -> Z.of_nat k < n - 1 ->
  let c := animate timestamp false b in
  config c = config b /\ loading c = loading b /\
  ((currentFrame c = Z.of_nat k /\ drawn c = drawn b /\
    isPlaying c = true /\ hasPlayed c = false /\ exists last, lastTime c = Some last) \/
   (currentFrame c = Z.of_nat (S k) /\ drawn c = drawn b ++ [Z.of_nat (S k)] /\
    ((Z.of_nat (S k) < n - 1 /\ isPlaying c = true /\ hasPlayed c = false /\
      exists last, lastTime c = Some last) \/
     (Z.of_nat (S k) = n - 1 /\ isPlaying c = false)))).
Proof.
  intros Honce Hloop Hfc Hall Hplay Hnot [last Hlast] Hcur Hk c.
  destruct (animate_effect timestamp false b) as (Hc & Hl & _).
  split; [exact Hc|]. split; [exact Hl|]. subst c.
  assert (Hguard : playOnce b && hasPlayed b = false) by (rewrite Hnot; apply andb_false_r).
  destruct (Qlt_le_dec (interval b) (Js.sub timestamp last)) as [Hlate | Hearly].
  2:{ left. rewrite (animate_early timestamp last false b Hplay Hguard Hlast Hearly).
      split; [exact Hcur|]. split; [reflexivity|]. split; [exact Hplay|].
      split; [exact Hnot|]. exists last. exact Hlast. }
  right.
  assert (Hnext : Js.rem (currentFrame b + 1) (frameCount b) = Z.of_nat (S k)).
  { rewrite Hcur, Hfc. unfold Js.rem. rewrite Z.rem_small by lia. lia. }
  destruct (renderFrame_unfrozen false b (unfrozen_of_not_completed b Hguard)) as (Hrc & Hrd).
  rewrite Hnext in Hrc, Hrd.
  destruct (Hall (Z.of_nat (S k))) as [img Hslot]; [lia|]. rewrite Hslot in Hrd.
  destruct (renderFrame_keeps false b) as (Hcfg & _ & _ & Hhp & _ & _ & Hsame).
  destruct (Hsame eq_refl) as (Hrp & _ & _).
  destruct (animate_late_effect timestamp last false b Hplay Hguard Hlast Hlate)
    as (Hac & Had & Hat).
  split; [rewrite Hac; exact Hrc|]. split; [rewrite Had; exact Hrd|].
  rewrite (animate_late timestamp last false b Hplay Hguard Hlast Hlate). cbv zeta.
  set (rendered := set_lastTime _ (renderFrame false b)).
  assert (Hcr : currentFrame rendered = Z.of_nat (S k)) by exact Hrc.
  assert (Hfr : frameCount rendered = n)
    by (unfold frameCount; change (config rendered) with (config (renderFrame false b));
        rewrite Hcfg; exact Hfc).
  assert (Hmode : playOnce rendered && negb (loop rendered) = true).
  { unfold playOnce, loop. change (config rendered) with (config (renderFrame false b)).
    rewrite Hcfg. fold (playOnce b) (loop b). rewrite Honce, Hloop. reflexivity. }
  rewrite Hcr, Hfr, Hmode.
  destruct (Z.eqb_spec (Z.of_nat (S k)) (n - 1)) as [Hend | Hmore].
  - right. split; [exact Hend | apply stop_isPlaying].
  - left. split; [lia|]. split; [rewrite <- Hplay; exact Hrp|].
    split; [rewrite <- Hnot; exact Hhp|]. eexists. reflexivity.
Qed.

Lemma once_run (n : Z) (ts : list (Q * bool)) :
  Forall (fun p => snd p = false) ts ->
  forall (b : FrameAnimator) (k : nat),
    playOnce b = true -> loop b = false -> frameCount b = n ->
    (forall i, 0 <= i < n -> loaded_at b i) ->
    currentFrame b = Z.of_nat k ->
    (isPlaying b = true /\ hasPlayed b = false /\ (exists last, lastTime b = Some last) /\
     Z.of_nat k < n - 1) \/
    (isPlaying b = false /\ Z.of_nat k = n - 1) ->
    exists m : nat,
      currentFrame (ticks ts b) = Z.of_nat (k + m) /\
      Z.of_nat (k + m) <= n - 1 /\
      drawn (ticks ts b) = drawn b ++ map Z.of_nat (seq (S k) m) /\
      (isPlaying (ticks ts b) = false <-> Z.of_nat (k + m) = n - 1).
Proof.
  induction 1 as [|[timestamp throws] ts Hthrows Hts IH];
    intros b k Honce Hloop Hfc Hall Hcur Hstate.
  - exists 0%nat. cbn [ticks seq map]. rewrite Nat.add_0_r, app_nil_r.
    split; [exact Hcur|]. split; [destruct Hstate as [(_ & _ & _ & Hk) | [_ Hk]]; lia|].
    split; [reflexivity|].
    destruct Hstate as [(Hp & _ & _ & Hk) | [Hp Hk]]; split; intros; try congruence; lia.
  - cbn [snd] in Hthrows. subst throws. cbn [ticks].
    destruct Hstate as [(Hp & Hnot & Hlast & Hk) | [Hp Hk]].
    2:{ rewrite (animate_not_playing timestamp false b Hp).
        apply IH; auto. }
    destruct (once_tick timestamp n k b Honce Hloop Hfc Hall Hp Hnot Hlast Hcur Hk)
      as (Hc & Hl & Hcase).
    set (c := animate timestamp false b) in *.
    assert (Honce' : playOnce c = true) by (unfold playOnce; rewrite Hc; exact Honce).
    assert (Hloop' : loop c = false) by (unfold loop; rewrite Hc; exact Hloop).
    assert (Hfc' : frameCount c = n) by (unfold frameCount; rewrite Hc; exact Hfc).
    assert (Hall' : forall i, 0 <= i < n -> loaded_at c i).
    { intros i Hi. apply (loaded_at_images b c i); [|apply Hall; exact Hi].
      unfold images. rewrite Hl. reflexivity. }
    destruct Hcase as [(Hcur' & Hd & Hp' & Hnot' & Hlast') |
                       (Hcur' & Hd & Hnext)].
    + destruct (IH c k Honce' Hloop' Hfc' Hall' Hcur') as (m & H1 & H2 & H3 & H4).
      { left. auto. }
      exists m. rewrite H3, Hd. auto.
    + destruct (IH c (S k) Honce' Hloop' Hfc' Hall' Hcur') as (m & H1 & H2 & H3 & H4).
      { destruct Hnext as [(Hk' & Hp' & Hnot' & Hlast') | (Hk' & Hp')]; [left | right]; auto. }
      exists (S m). replace (k + S m)%nat with (S k + m)%nat by lia.
      split; [exact H1|]. split; [exact H2|]. split; [|exact H4].
      rewrite H3, Hd, <- app_assoc. reflexivity.
Qed.

(** A play-once run without looping, on at least two loaded frames, in
    which only clock ticks reach the object after [play()] (no resize, no
    click, no failing draw): however the ticks are timed, the frames drawn
    since [play()] are those at indices 1, 2, ..., up to the current index,
    each once and in order; the frame at index 0 is not among them; and
    the run is over exactly when the index is [frameCount - 1]. *)
Theorem play_once_run_draws_in_order
  (a : FrameAnimator) (now : Q) (ts : list (Q * bool)) :
  playOnce a = true ->
  loop a = false ->
  2 <= frameCount a ->
  (forall i, 0 <= i < frameCount a -> loaded_at a i) ->
  isPlaying a = false ->
  hasError a = false ->
  isLoading a = false ->
  Forall (fun p => snd p = false) ts ->
  let b := ticks ts (play now a) in
  exists m : nat,
    Z.of_nat m <= frameCount a - 1 /\
    currentFrame b = Z.of_nat m /\
    drawn b = drawn a ++ map Z.of_nat (seq 1 m) /\
    (isPlaying b = false <-> Z.of_nat m = frameCount a - 1).
Proof.
  intros Honce Hloop Hcount Hall Hp He Hl Hts b. subst b.
  rewrite (play_fresh now a Hp He Hl).
  set (s := requestAnimationFrame _).
  destruct (once_run (frameCount a) ts Hts s 0) as (m & H1 & H2 & H3 & H4);
    try reflexivity; try assumption.
  - left. split; [reflexivity|]. split; [reflexivity|]. split; [eexists; reflexivity | lia].
  - exists m. cbn [Nat.add] in *. auto.
Qed.

Lemma play_once_run_draws_in_order_witness :
  let a := ready 3 false true in
  let ts := [(41, false); (50, false); (90, false); (140, false)]%Q in
  playOnce a = true /\ loop a = false /\ 2 <= frameCount a /\
  isPlaying a = false /\ hasError a = false /\ isLoading a = false /\
  exists m : nat,
    Z.of_nat m <= frameCount a - 1 /\
    drawn (ticks ts (play 0 a)) = drawn a ++ map Z.of_nat (seq 1 m).
Proof.
  intros a ts.
  assert (Honce : playOnce a = true) by (vm_compute; reflexivity).
  assert (Hloop : loop a = false) by (vm_compute; reflexivity).
  assert (Hcount : 2 <= frameCount a) by (vm_compute; discriminate).
  assert (Hp : isPlaying a = false) by (vm_compute; reflexivity).
  assert (He : hasError a = false) by (vm_compute; reflexivity).
  assert (Hl : isLoading a = false) by (vm_compute; reflexivity).
  assert (Hall : forall i, 0 <= i < frameCount a -> loaded_at a i).
  { intros i Hi. change (frameCount a) with 3 in Hi.
    assert (Hcases : i = 0 \/ i = 1 \/ i = 2) by lia.
    destruct Hcases as [-> | [-> | ->]]; eexists; vm_compute; reflexivity. }
  assert (Hts : Forall (fun p : Q * bool => snd p = false) ts) by (repeat constructor).
  split; [exact Honce|]. split; [exact Hloop|]. split; [exact Hcount|].
  split; [exact Hp|]. split; [exact He|]. split; [exact Hl|].
  destruct (play_once_run_draws_in_order a 0 ts Honce Hloop Hcount Hall Hp He Hl Hts)
    as (m & Hm & _ & Hd & _).
  exists m. split; [exact Hm | exact Hd].
Defined.

(* ================================================================== *)
(** * Loading one frame *)
(* ================================================================== *)

Lemma getFramePath_config (a b : FrameAnimator) (k : Z) :
  config a = config b -> getFramePath a k = getFramePath b k.
Proof. unfold getFramePath, imagePath, prefix, digits. intros ->. reflexivity. Qed.

Lemma count_loaded_insert (slots : list (option Image)) (i : nat) (img : Image) :
  slots !! i = Some None ->
  count_loaded (<[i := Some img]> slots) = count_loaded slots + 1.
Proof.
  unfold count_loaded. revert i. induction slots as [|slot slots IH]; intros i Hi.
  - discriminate.
  - destruct i as [|i]; cbn in Hi.
    + injection Hi as ->. cbn. lia.
    + specialize (IH i Hi). cbn in IH |- *. unfold insert in IH |- *.
      destruct (is_loaded slot); cbn [length]; lia.
Qed.

Lemma count_loaded_full (slots : list (option Image)) :
  (forall i, (i < length slots)%nat -> exists img, slots !! i = Some (Some img)) ->
  count_loaded slots = Z.of_nat (length slots).
Proof.
  unfold count_loaded. induction slots as [|slot slots IH]; intros Hall; [reflexivity|].
  destruct (Hall 0%nat) as [img Himg]; [cbn; lia|]. cbn in Himg. injection Himg as ->.
  cbn [List.filter is_loaded length].
  rewrite !Nat2Z.inj_succ. f_equal. apply IH.
  intros i Hi. apply (Hall (S i)). cbn. lia.
Qed.

Lemma index_in_range {A} (arr : list A) (i : Z) :
  0 <= i < Z.of_nat (length arr) -> exists x, Js.index arr i = Some x /\ arr !! Z.to_nat i = Some x.
Proof.
  intros Hi. unfold Js.index. destruct (Z.ltb_spec i 0) as [|_]; [lia|].
  destruct (arr !! Z.to_nat i) as [x|] eqn:Hx; [exists x; auto|].
  apply lookup_ge_None in Hx. lia.
Qed.

Lemma index_assign_same {A} (hole : A) (arr : list A) (i : Z) (x : A) :
  0 <= i < Z.of_nat (length arr) -> Js.index (Js.assign hole arr i x) i = Some x.
Proof.
  intros Hi. unfold Js.assign, Js.index.
  destruct (Z.ltb_spec i 0) as [|_]; [lia|].
  destruct (Z.ltb_spec i (Z.of_nat (length arr))) as [_|]; [|lia].
  apply list_lookup_insert_eq. lia.
Qed.

Lemma index_assign_other {A} (hole : A) (arr : list A) (i j : Z) (x : A) :
  0 <= i < Z.of_nat (length arr) -> j <> i ->
  Js.index (Js.assign hole arr i x) j = Js.index arr j.
Proof.
  intros Hi Hj. unfold Js.assign, Js.index.
  destruct (Z.ltb_spec i 0) as [|_]; [lia|].
  destruct (Z.ltb_spec i (Z.of_nat (length arr))) as [_|]; [|lia].
  destruct (Z.ltb_spec j 0) as [|Hj0]; [reflexivity|].
  apply list_lookup_insert_ne. lia.
Qed.

Lemma length_assign {A} (hole : A) (arr : list A) (i : Z) (x : A) :
  0 <= i < Z.of_nat (length arr) -> length (Js.assign hole arr i x) = length arr.
Proof.
  intros Hi. unfold Js.assign.
  destruct (Z.ltb_spec i 0) as [|_]; [lia|].
  destruct (Z.ltb_spec i (Z.of_nat (length arr))) as [_|]; [|lia].
  apply length_insert.
Qed.

(** Everything one call of [loadFrame] on a frame number in range does. *)
Lemma loadFrame_spec (decode : string -> option (Q * Q)) (k : Z) (a : FrameAnimator) :
  1 <= k <= Z.of_nat (length (images a)) ->
  loadedCount a = count_loaded (images a) ->
  let a' := fst (loadFrame decode k a) in
  let r := snd (loadFrame decode k a) in
  config a' = config a /\ playback a' = playback a /\ host a' = host a /\
  hasError a' = hasError a /\ isLoading a' = isLoading a /\
  length (images a') = length (images a) /\
  loadedCount a' = count_loaded (images a') /\
  loadedCount a <= loadedCount a' /\
  (forall i, loaded_at a i -> loaded_at a' i) /\
  (forall i, i <> k - 1 -> Js.index (images a') i = Js.index (images a) i) /\
  (r = Js.Return tt -> loaded_at a' (k - 1)) /\
  (r = Js.Throw (Js.Error (msg_load k)) \/ r = Js.Return tt) /\
  (r <> Js.Return tt ->
   a' = a /\ ~ loaded_at a (k - 1) /\ decode (getFramePath a k) = None) /\
  (loaded_at a (k - 1) -> a' = a /\ r = Js.Return tt) /\
  (decode (getFramePath a k) <> None -> r = Js.Return tt) /\
  (r = Js.Return tt -> loaded_at a (k - 1) \/ decode (getFramePath a k) <> None).
Proof.
  intros Hk Hcount a' r. subst a' r. unfold loadFrame.
  destruct (index_in_range (images a) (k - 1)) as (slot & Hslot & Hlook); [lia|].
  rewrite Hslot. destruct slot as [img|].
  - cbn [fst snd]. repeat split; auto; try lia; try discriminate;
      try (intros; exists img; exact Hslot); try (intros; exfalso; congruence).
    intros _. left. exists img. exact Hslot.
  - assert (Hempty : ~ loaded_at a (k - 1)).
    { intros [img Himg]. rewrite Hslot in Himg. discriminate. }
    unfold loadImage. destruct (decode (getFramePath a k)) as [[w h]|] eqn:Hdec.
    + cbv zeta. cbn [fst snd].
      set (img := {| src := getFramePath a k; naturalWidth := w; naturalHeight := h |}).
      set (slots := Js.assign None (images a) (k - 1) (Some img)).
      set (a2 := set_loadedCount _ (set_images slots a)).
      assert (Himg : images a2 = slots) by reflexivity.
      assert (Hlc : loadedCount a2 = loadedCount a + 1) by reflexivity.
      assert (Hslots : slots = <[Z.to_nat (k - 1) := Some img]> (images a)).
      { subst slots. unfold Js.assign.
        destruct (Z.ltb_spec (k - 1) 0) as [|_]; [lia|].
        destruct (Z.ltb_spec (k - 1) (Z.of_nat (length (images a)))) as [_|]; [|lia].
        reflexivity. }
      assert (Hnew : loaded_at a2 (k - 1)).
      { exists img. rewrite Himg. subst slots. apply index_assign_same. lia. }
      split; [reflexivity|]. split; [reflexivity|]. split; [reflexivity|].
      split; [reflexivity|]. split; [reflexivity|].
      split; [rewrite Himg; subst slots; apply length_assign; lia|].
      split; [rewrite Hlc, Himg, Hslots, (count_loaded_insert _ _ img Hlook), Hcount;
              reflexivity|].
      split; [lia|].
      split; [|split; [|split; [|split; [|split; [|split; [|split]]]]]].
      * intros i [old Hold]. destruct (Z.eq_dec i (k - 1)) as [-> | Hne]; [exact Hnew|].
        exists old. rewrite Himg. subst slots. rewrite index_assign_other by lia. exact Hold.
      * intros i Hne. rewrite Himg. subst slots. apply index_assign_other; lia.
      * intros _. exact Hnew.
      * right. reflexivity.
      * intros H. contradiction.
      * intros H. contradiction.
      * intros _. reflexivity.
      * intros _. right. discriminate.
    + cbn [fst snd]. repeat split; auto; try lia; try discriminate;
        try (intros; exfalso; congruence).
Qed.

(** [loadFrame] stores a frame once: a frame number in range whose load
    succeeded has its slot filled, and loading it again, with any decoder,
    changes nothing and succeeds; a load that fails changes nothing;
    loaded slots stay loaded, other slots are not touched, and
    [loadedCount] goes on counting the slots that hold an image. *)
Theorem loadFrame_idempotent (decode : string -> option (Q * Q)) (k : Z) (a : FrameAnimator) :
  1 <= k <= Z.of_nat (length (images a)) ->
  loadedCount a = count_loaded (images a) ->
  let a' := fst (loadFrame decode k a) in
  let r := snd (loadFrame decode k a) in
  (r = Js.Return tt ->
   loaded_at a' (k - 1) /\
   forall decode', loadFrame decode' k a' = (a', Js.Return tt)) /\
  (r <> Js.Return tt -> a' = a /\ r = Js.Throw (Js.Error (msg_load k))) /\
  (forall i, loaded_at a i -> loaded_at a' i) /\
  (forall i, i <> k - 1 -> Js.index (images a') i = Js.index (images a) i) /\
  loadedCount a' = count_loaded (images a') /\
  loadedCount a <= loadedCount a' <= loadedCount a + 1.
Proof.
  intros Hk Hcount a' r.
  destruct (loadFrame_spec decode k a Hk Hcount)
    as (_ & _ & _ & _ & _ & Hlen & Hcount' & Hmono & Hkeep & Hother & Hok & Hres & Hfail & _).
  fold a' r in Hlen, Hcount', Hmono, Hkeep, Hother, Hok, Hres, Hfail.
  split; [|split; [|split; [exact Hkeep|split; [exact Hother|split; [exact Hcount'|]]]]].
  - intros Hr. split; [exact (Hok Hr)|]. intros decode'.
    assert (Hk' : 1 <= k <= Z.of_nat (length (images a'))) by (rewrite Hlen; exact Hk).
    destruct (loadFrame_spec decode' k a' Hk' Hcount')
      as (_ & _ & _ & _ & _ & _ & _ & _ & _ & _ & _ & _ & _ & Hagain & _).
    destruct (Hagain (Hok Hr)) as [Hsame Hret].
    destruct (loadFrame decode' k a') as [a'' r'']. cbn [fst snd] in *. congruence.
  - intros Hr. split; [exact (proj1 (Hfail Hr))|]. destruct Hres as [Hres | Hres]; congruence.
  - split; [exact Hmono|].
    clear. subst a'. unfold loadFrame.
    destruct (Js.index (images a) (k - 1)) as [[img|]|]; cbn [fst]; try lia;
      unfold loadImage; destruct (decode (getFramePath a k)) as [[w h]|];
      cbn [fst]; cbv zeta;
      try change (loadedCount (set_loadedCount ?v _)) with v;
      try change (loadedCount (set_images ?s a)) with (loadedCount a); lia.
Qed.

Lemma loadFrame_idempotent_witness :
  let a := fresh 3 true false in
  1 <= 2 <= Z.of_nat (length (images a)) /\
  loadedCount a = count_loaded (images a) /\
  (forall decode',
     loadFrame decode' 2 (fst (loadFrame decode_all 2 a)) =
       (fst (loadFrame decode_all 2 a), Js.Return tt)).
Proof.
  intros a.
  assert (Hk : 1 <= 2 <= Z.of_nat (length (images a)))
    by (vm_compute; split; discriminate).
  assert (Hc : loadedCount a = count_loaded (images a)) by (vm_compute; reflexivity).
  split; [exact Hk|]. split; [exact Hc|].
  assert (Hr : snd (loadFrame decode_all 2 a) = Js.Return tt) by (vm_compute; reflexivity).
  exact (proj2 (proj1 (loadFrame_idempotent decode_all 2 a Hk Hc) Hr)).
Defined.

(* ================================================================== *)
(** * Loading all frames *)
(* ================================================================== *)

(** A batch: [n] frames from number [start] on, all in range. *)
Lemma loadFrames_spec (decode : string -> option (Q * Q)) (n : nat) :
  forall (start : Z) (a : FrameAnimator),
  1 <= start ->
  start + Z.of_nat n - 1 <= Z.of_nat (length (images a)) ->
  loadedCount a = count_loaded (images a) ->
  let a' := fst (loadFrames decode start n a) in
  let r := snd (loadFrames decode start n a) in
  config a' = config a /\ playback a' = playback a /\ host a' = host a /\
  hasError a' = hasError a /\ isLoading a' = isLoading a /\
  length (images a') = length (images a) /\
  loadedCount a' = count_loaded (images a') /\
  loadedCount a <= loadedCount a' /\
  (forall i, loaded_at a i -> loaded_at a' i) /\
  (forall i, i < start - 1 \/ start - 1 + Z.of_nat n <= i ->
     Js.index (images a') i = Js.index (images a) i) /\
  (r = Js.Return tt -> forall k, start <= k < start + Z.of_nat n -> loaded_at a' (k - 1)) /\
  (r <> Js.Return tt ->
   exists k, start <= k < start + Z.of_nat n /\ ~ loaded_at a (k - 1) /\
             decode (getFramePath a k) = None /\ r = Js.Throw (Js.Error (msg_load k))) /\
  ((forall k, start <= k < start + Z.of_nat n ->
      loaded_at a (k - 1) \/ decode (getFramePath a k) <> None) ->
   r = Js.Return tt) /\
  (r = Js.Return tt ->
   forall k, start <= k < start + Z.of_nat n ->
     loaded_at a (k - 1) \/ decode (getFramePath a k) <> None).
Proof.
  induction n as [|n IH]; intros start a Hstart Hend Hcount.
  - cbn [loadFrames fst snd]. repeat split; auto; try lia; try (intros; exfalso; congruence).
  - cbn [loadFrames].
    assert (Hk : 1 <= start <= Z.of_nat (length (images a))) by lia.
    pose proof (loadFrame_spec decode start a Hk Hcount) as H1.
    destruct (loadFrame decode start a) as [a1 r1]. cbn [fst snd] in H1.
    destruct H1 as (Hc1 & Hp1 & Hh1 & He1 & Hl1 & Hlen1 & Hcount1 & Hle1 & Hmono1 & Hother1 &
                    Hok1 & Hres1 & Hfail1 & Hloaded1 & Hdec1 & Hnec1).
    assert (Hend1 : start + 1 + Z.of_nat n - 1 <= Z.of_nat (length (images a1)))
      by (rewrite Hlen1; lia).
    pose proof (IH (start + 1) a1 ltac:(lia) Hend1 Hcount1) as H2.
    destruct (loadFrames decode (start + 1) n a1) as [a2 r2]. cbn [fst snd] in H2 |- *.
    destruct H2 as (Hc2 & Hp2 & Hh2 & He2 & Hl2 & Hlen2 & Hcount2 & Hle2 & Hmono2 & Hother2 &
                    Hok2 & Hfail2 & Hsuff2 & Hnec2).
    split; [congruence|]. split; [congruence|]. split; [congruence|].
    split; [congruence|]. split; [congruence|]. split; [congruence|].
    split; [exact Hcount2|]. split; [lia|]. split; [auto|].
    split; [|split; [|split; [|split]]].
    + intros i Hi. rewrite Hother2 by lia. apply Hother1. lia.
    + intros Hr k Hrange. destruct r1 as [[]|e1]; [|discriminate].
      destruct (Z.eq_dec k start) as [-> | Hne].
      * apply Hmono2. apply Hok1. reflexivity.
      * apply (Hok2 Hr). lia.
    + intros Hr. destruct r1 as [[]|e1].
      * destruct (Hfail2 Hr) as (k & Hrange & Hempty & Hdec & Hthrow).
        exists k. split; [lia|]. split; [intros Hl; apply Hempty; apply Hmono1; exact Hl|].
        split; [rewrite (getFramePath_config a a1 k) by congruence; exact Hdec | exact Hthrow].
      * assert (Hne : Js.Throw e1 <> Js.Return tt) by discriminate.
        destruct (Hfail1 Hne) as (_ & Hempty & Hdec).
        exists start. split; [lia|]. split; [exact Hempty|]. split; [exact Hdec|].
        destruct Hres1 as [Hres1 | Hres1]; [exact Hres1 | discriminate].
    + intros Hall.
      assert (Hr1 : r1 = Js.Return tt).
      { destruct (Hall start ltac:(lia)) as [Hl | Hd];
          [exact (proj2 (Hloaded1 Hl)) | exact (Hdec1 Hd)]. }
      rewrite Hr1. apply Hsuff2. intros k Hrange.
      destruct (Hall k ltac:(lia)) as [Hl | Hd]; [left; apply Hmono1; exact Hl|].
      right. rewrite <- (getFramePath_config a a1 k) by congruence. exact Hd.
    + intros Hr k Hrange. destruct r1 as [[]|e1]; [|discriminate].
      destruct (Z.eq_dec k start) as [-> | Hne]; [apply Hnec1; reflexivity|].
      destruct (Hnec2 Hr k ltac:(lia)) as [[img Hl] | Hd].
      * left. exists img. rewrite <- (Hother1 (k - 1)) by lia. exact Hl.
      * right. rewrite (getFramePath_config a a1 k) by congruence. exact Hd.
Qed.

Lemma ceil_bounds (count : Z) :
  let totalBatches := Js.ceil (inject_Z count / inject_Z batchSize)%Q in
  batchSize * (totalBatches - 1) < count <= batchSize * totalBatches.
Proof.
  cbv zeta. unfold Js.ceil.
  pose proof (Qle_ceiling (inject_Z count / inject_Z batchSize)) as Hhi.
  pose proof (Qceiling_lt (inject_Z count / inject_Z batchSize)) as Hlo.
  set (t := Qceiling (inject_Z count / inject_Z batchSize)) in *.
  unfold Qle, Qlt, Qdiv, Qmult, Qinv, inject_Z, batchSize in *. cbn in Hhi, Hlo.
  unfold batchSize. lia.
Qed.

(** The batches from [batch] on, [n] of them, none of them empty. *)
Lemma loadBatches_spec (decode : string -> option (Q * Q)) (totalBatches : Z) (n : nat) :
  forall (batch : Z) (a : FrameAnimator),
  0 <= batch ->
  Z.of_nat (length (images a)) = frameCount a ->
  loadedCount a = count_loaded (images a) ->
  (n <> 0%nat -> batchSize * (batch + Z.of_nat n - 1) < frameCount a) ->
  let a' := fst (loadBatches decode totalBatches n batch a) in
  let r := snd (loadBatches decode totalBatches n batch a) in
  let last := Z.min (batchSize * (batch + Z.of_nat n)) (frameCount a) in
  config a' = config a /\ playback a' = playback a /\
  h_progressBar (host a') = h_progressBar (host a) /\
  hasError a' = hasError a /\ isLoading a' = isLoading a /\
  length (images a') = length (images a) /\
  loadedCount a' = count_loaded (images a') /\
  loadedCount a <= loadedCount a' /\
  (forall i, loaded_at a i -> loaded_at a' i) /\
  (r = Js.Return tt -> forall k, batchSize * batch + 1 <= k <= last -> loaded_at a' (k - 1)) /\
  (r <> Js.Return tt ->
   exists k, batchSize * batch + 1 <= k <= last /\ ~ loaded_at a (k - 1) /\
             decode (getFramePath a k) = None /\ r = Js.Throw (Js.Error (msg_load k))) /\
  ((forall k, batchSize * batch + 1 <= k <= last ->
      loaded_at a (k - 1) \/ decode (getFramePath a k) <> None) ->
   r = Js.Return tt) /\
  (r = Js.Return tt ->
   forall k, batchSize * batch + 1 <= k <= last ->
     loaded_at a (k - 1) \/ decode (getFramePath a k) <> None).
Proof.
  induction n as [|n IH]; intros batch a Hbatch Hlen Hcount Hfull.
  - cbn [loadBatches fst snd]. cbv zeta.
    repeat split; auto; try lia; try (intros; exfalso; congruence).
  - cbn [loadBatches]. cbv zeta.
    specialize (Hfull ltac:(discriminate)). unfold batchSize in Hfull.
    set (start := batch * batchSize + 1).
    set (count := Z.to_nat (Z.min ((batch + 1) * batchSize) (frameCount a) - start + 1)).
    assert (Hcnt : Z.of_nat count =
                   Z.min ((batch + 1) * batchSize) (frameCount a) - start + 1)
      by (subst count start; unfold batchSize; lia).
    assert (Hin : start + Z.of_nat count - 1 <= Z.of_nat (length (images a)))
      by (rewrite Hcnt, Hlen; lia).
    pose proof (loadFrames_spec decode count start a
                  ltac:(subst start; unfold batchSize; lia) Hin Hcount) as H1.
    destruct (loadFrames decode start count a) as [a1 r1]. cbn [fst snd] in H1.
    destruct H1 as (Hc1 & Hp1 & Hh1 & He1 & Hl1 & Hlen1 & Hcount1 & Hle1 & Hmono1 & Hother1 &
                    Hok1 & Hfail1 & Hsuff1 & Hnec1).
    assert (Hfc1 : frameCount a1 = frameCount a) by (unfold frameCount; rewrite Hc1; reflexivity).
    destruct r1 as [[]|e1].
    + set (a2 := updateProgress _ a1).
      assert (Hfc2 : frameCount a2 = frameCount a) by exact Hfc1.
      pose proof (IH (batch + 1) a2 ltac:(lia)) as H2.
      change (images a2) with (images a1) in H2.
      change (loadedCount a2) with (loadedCount a1) in H2.
      rewrite Hfc2 in H2.
      specialize (H2 ltac:(rewrite Hlen1; exact Hlen) Hcount1
                     ltac:(intros _; unfold batchSize; lia)).
      destruct (loadBatches decode totalBatches n (batch + 1) a2) as [a3 r3].
      cbn [fst snd] in H2 |- *. cbv zeta in H2.
      destruct H2 as (Hc3 & Hp3 & Hb3 & He3 & Hl3 & Hlen3 & Hcount3 & Hle3 & Hmono3 &
                      Hok3 & Hfail3 & Hsuff3 & Hnec3).
      change (config a2) with (config a1) in Hc3.
      change (playback a2) with (playback a1) in Hp3.
      change (h_progressBar (host a2)) with (h_progressBar (host a1)) in Hb3.
      change (hasError a2) with (hasError a1) in He3.
      change (isLoading a2) with (isLoading a1) in Hl3.
      assert (Hmono23 : forall i, loaded_at a1 i -> loaded_at a3 i)
        by (intros i Hi; apply Hmono3; exact Hi).
      split; [congruence|]. split; [congruence|]. split; [rewrite Hb3, Hh1; reflexivity|].
      split; [congruence|]. split; [congruence|]. split; [congruence|].
      split; [exact Hcount3|]. split; [lia|]. split; [auto|].
      unfold batchSize in *. split; [|split; [|split]].
      * intros Hr k Hk.
        destruct (Z_le_gt_dec k (45 * (batch + 1))) as [Hfirst | Hlater].
        -- apply Hmono23. apply (Hok1 eq_refl). subst start. unfold batchSize. lia.
        -- apply (Hok3 Hr). lia.
      * intros Hr. destruct (Hfail3 Hr) as (k & Hk & Hempty & Hdec & Hthrow).
        exists k. split; [lia|].
        split; [intros Hl; apply Hempty; apply (Hmono1 _ Hl)|].
        split; [|exact Hthrow].
        rewrite (getFramePath_config a a2 k); [exact Hdec|].
        change (config a2) with (config a1). congruence.
      * intros Hall. apply Hsuff3. intros k Hk.
        destruct (Hall k ltac:(lia)) as [Hl | Hd];
          [left; apply (Hmono1 _ Hl) | right].
        rewrite <- (getFramePath_config a a2 k); [exact Hd|].
        change (config a2) with (config a1). congruence.
      * intros Hr k Hk.
        destruct (Z_le_gt_dec k (45 * (batch + 1))) as [Hfirst | Hlater].
        -- apply (Hnec1 eq_refl). subst start. unfold batchSize. lia.
        -- destruct (Hnec3 Hr k ltac:(lia)) as [[img Hl] | Hd].
           ++ left. exists img. change (images a2) with (images a1) in Hl.
              rewrite <- (Hother1 (k - 1)); [exact Hl|].
              subst start. unfold batchSize. lia.
           ++ right. rewrite (getFramePath_config a a2 k); [exact Hd|].
              change (config a2) with (config a1). congruence.
    + cbn [fst snd].
      split; [exact Hc1|]. split; [exact Hp1|]. split; [rewrite Hh1; reflexivity|].
      split; [exact He1|]. split; [exact Hl1|]. split; [exact Hlen1|].
      split; [exact Hcount1|]. split; [exact Hle1|]. split; [exact Hmono1|].
      unfold batchSize in *. split; [discriminate|]. split; [|split; [|discriminate]].
      * intros Hne. destruct (Hfail1 Hne) as (k & Hk & Hempty & Hdec & Hthrow).
        exists k. split; [subst start; unfold batchSize in *; lia|]. auto.
      * intros Hall. apply Hsuff1. intros k Hk. apply Hall.
        subst start. unfold batchSize in *. lia.
Qed.

Lemma loaded_at_lookup (a : FrameAnimator) (i : nat) :
  loaded_at a (Z.of_nat i) -> exists img, images a !! i = Some (Some img).
Proof.
  intros [img Himg]. exists img. unfold Js.index in Himg.
  destruct (Z.ltb_spec (Z.of_nat i) 0) as [|_]; [lia|].
  rewrite Nat2Z.id in Himg. exact Himg.
Qed.

Lemma loadAllFrames_spec (decode : string -> option (Q * Q)) (a : FrameAnimator) :
  0 < frameCount a ->
  Z.of_nat (length (images a)) = frameCount a ->
  loadedCount a = count_loaded (images a) ->
  let a' := fst (loadAllFrames decode a) in
  let r := snd (loadAllFrames decode a) in
  config a' = config a /\ playback a' = playback a /\
  h_progressBar (host a') = h_progressBar (host a) /\
  hasError a' = hasError a /\ isLoading a' = isLoading a /\
  length (images a') = length (images a) /\
  loadedCount a' = count_loaded (images a') /\
  loadedCount a <= loadedCount a' /\
  (forall i, loaded_at a i -> loaded_at a' i) /\
  (r = Js.Return tt -> forall k, 1 <= k <= frameCount a -> loaded_at a' (k - 1)) /\
  (r <> Js.Return tt ->
   exists k, 1 <= k <= frameCount a /\ ~ loaded_at a (k - 1) /\
             decode (getFramePath a k) = None /\ r = Js.Throw (Js.Error (msg_load k))) /\
  ((forall k, 1 <= k <= frameCount a ->
      loaded_at a (k - 1) \/ decode (getFramePath a k) <> None) ->
   r = Js.Return tt) /\
  (r = Js.Return tt ->
   forall k, 1 <= k <= frameCount a ->
     loaded_at a (k - 1) \/ decode (getFramePath a k) <> None).
Proof.
  intros Hcount Hlen Hlc. unfold loadAllFrames.
  pose proof (ceil_bounds (frameCount a)) as Hceil. cbv zeta in Hceil.
  set (totalBatches := Js.ceil (inject_Z (frameCount a) / inject_Z batchSize)%Q) in *.
  assert (Hpos : 0 < totalBatches) by (unfold batchSize in Hceil; lia).
  pose proof (loadBatches_spec decode totalBatches (Z.to_nat totalBatches) 0 a
                ltac:(lia) Hlen Hlc) as H.
  rewrite Z2Nat.id in H by lia.
  specialize (H ltac:(intros _; replace (0 + totalBatches - 1) with (totalBatches - 1) by lia;
                      exact (proj1 Hceil))).
  cbv zeta in H.
  replace (Z.min (batchSize * (0 + totalBatches)) (frameCount a)) with (frameCount a) in H
    by (replace (0 + totalBatches) with totalBatches by lia; lia).
  replace (batchSize * 0 + 1) with 1 in H by (unfold batchSize; lia).
  exact H.
Qed.

(** [loadAllFrames] on a frame set of [frameCount] slots: it succeeds
    exactly when every frame that is not yet loaded decodes, and then every
    slot holds an image and [loadedCount] is [frameCount]; otherwise it
    throws the load error of a frame that is missing and does not decode.
    Either way no slot that was loaded is lost, [loadedCount] counts the
    loaded slots, and playback and configuration are untouched. *)
Theorem loadAllFrames_outcome (decode : string -> option (Q * Q)) (a : FrameAnimator) :
  0 < frameCount a ->
  Z.of_nat (length (images a)) = frameCount a ->
  loadedCount a = count_loaded (images a) ->
  let a' := fst (loadAllFrames decode a) in
  let r := snd (loadAllFrames decode a) in
  (r = Js.Return tt <->
   forall k, 1 <= k <= frameCount a ->
     loaded_at a (k - 1) \/ decode (getFramePath a k) <> None) /\
  (r = Js.Return tt ->
   (forall i, 0 <= i < frameCount a -> loaded_at a' i) /\ loadedCount a' = frameCount a) /\
  (r <> Js.Return tt ->
   exists k, 1 <= k <= frameCount a /\ ~ loaded_at a (k - 1) /\
             decode (getFramePath a k) = None /\ r = Js.Throw (Js.Error (msg_load k))) /\
  (forall i, loaded_at a i -> loaded_at a' i) /\
  loadedCount a' = count_loaded (images a') /\
  loadedCount a <= loadedCount a' /\
  config a' = config a /\ playback a' = playback a.
Proof.
  intros Hcount Hlen Hlc a' r.
  destruct (loadAllFrames_spec decode a Hcount Hlen Hlc)
    as (Hc & Hp & _ & _ & _ & Hlen' & Hlc' & Hle & Hmono & Hok & Hfail & Hsuff & Hnec).
  fold a' r in Hc, Hp, Hlen', Hlc', Hle, Hmono, Hok, Hfail, Hsuff, Hnec.
  split; [split; [exact Hnec | exact Hsuff]|].
  split; [|split; [exact Hfail|]].
  - intros Hr.
    assert (Hall : forall i, 0 <= i < frameCount a -> loaded_at a' i).
    { intros i Hi. replace i with (i + 1 - 1) by lia. apply (Hok Hr). lia. }
    split; [exact Hall|].
    rewrite Hlc', count_loaded_full; [lia|].
    intros i Hi. apply loaded_at_lookup. apply Hall. lia.
  - split; [exact Hmono|]. split; [exact Hlc'|]. split; [exact Hle|]. split; assumption.
Qed.

Lemma loadAllFrames_outcome_witness :
  let a := fresh 100 true false in
  0 < frameCount a /\ Z.of_nat (length (images a)) = frameCount a /\
  loadedCount a = count_loaded (images a) /\
  (snd (loadAllFrames decode_all a) = Js.Return tt ->
   (forall i, 0 <= i < frameCount a -> loaded_at (fst (loadAllFrames decode_all a)) i) /\
   loadedCount (fst (loadAllFrames decode_all a)) = frameCount a).
Proof.
  intros a.
  assert (Hc : 0 < frameCount a) by (vm_compute; reflexivity).
  assert (Hlen : Z.of_nat (length (images a)) = frameCount a) by (vm_compute; reflexivity).
  assert (Hlc : loadedCount a = count_loaded (images a)) by (vm_compute; reflexivity).
  split; [exact Hc|]. split; [exact Hlen|]. split; [exact Hlc|].
  exact (proj1 (proj2 (loadAllFrames_outcome decode_all a Hc Hlen Hlc))).
Defined.

(* ================================================================== *)
(** * Initialisation *)
(* ================================================================== *)

(** [init] on an idle object with [frameCount] slots.  When the first
    frame and every frame not yet loaded decode, it ends with every slot
    loaded, the loading flag and the progress bar gone, no error, and
    playback started from index 0 exactly when [autoplay] is set.  When
    the first frame or a missing frame does not decode, it ends with the
    error flag set, nothing playing, the progress bar left in place, and
    [play()] without effect. *)
Theorem init_outcome
  (decode : string -> option (Q * Q)) (containerWidth containerHeight loadStart now : Q)
  (a : FrameAnimator) :
  0 < frameCount a ->
  Z.of_nat (length (images a)) = frameCount a ->
  loadedCount a = count_loaded (images a) ->
  isPlaying a = false ->
  hasError a = false ->
  let b := init decode containerWidth containerHeight loadStart now a in
  (decode (getFramePath a 1) <> None ->
   (forall k, 1 <= k <= frameCount a ->
      loaded_at a (k - 1) \/ decode (getFramePath a k) <> None) ->
   hasError b = false /\ isLoading b = false /\
   (forall i, 0 <= i < frameCount a -> loaded_at b i) /\
   loadedCount b = frameCount a /\
   h_progressBar (host b) = false /\
   isPlaying b = autoplay a /\
   (autoplay a = true -> currentFrame b = 0 /\ lastTime b = Some now /\ armed b)) /\
  (decode (getFramePath a 1) = None \/
   (exists k, 1 <= k <= frameCount a /\ ~ loaded_at a (k - 1) /\
              decode (getFramePath a k) = None) ->
   hasError b = true /\ isPlaying b = false /\
   h_progressBar (host b) = h_progressBar (host a) /\
   forall now', play now' b = b).
Proof.
  intros Hcount Hlen Hlc Hp He b. subst b. unfold init, loadImage.
  assert (Hblocked : forall x : FrameAnimator, hasError x = true -> forall now', play now' x = x).
  { intros x Hx now'. unfold play. rewrite Hx, orb_true_r. reflexivity. }
  destruct (decode (getFramePath a 1)) as [[w h]|] eqn:Hfirst.
  2:{ split; [intros Hne; contradiction|]. intros _.
      split; [reflexivity|]. split; [exact Hp|]. split; [reflexivity|].
      apply Hblocked. reflexivity. }
  cbv zeta. cbn [naturalWidth naturalHeight].
  set (a3 := set_loadStartTime loadStart
               (set_isLoading true
                  (updateCanvasSize containerWidth containerHeight (set_original w h a)))).
  assert (Hc3 : config a3 = config a) by reflexivity.
  assert (Hi3 : images a3 = images a) by reflexivity.
  assert (Hfc3 : frameCount a3 = frameCount a) by reflexivity.
  assert (Hlc3 : loadedCount a3 = count_loaded (images a3)) by exact Hlc.
  assert (Hlen3 : Z.of_nat (length (images a3)) = frameCount a3) by exact Hlen.
  assert (Hcount3 : 0 < frameCount a3) by exact Hcount.
  pose proof (loadAllFrames_spec decode a3 Hcount3 Hlen3 Hlc3) as H.
  destruct (loadAllFrames decode a3) as [a4 r4]. cbn [fst snd] in H.
  destruct H as (Hc4 & Hp4 & Hb4 & He4 & Hl4 & Hlen4 & Hlc4 & _ & _ & Hok & Hfail & Hsuff & Hnec).
  rewrite Hfc3 in Hok, Hfail, Hsuff, Hnec.
  assert (Hsame : forall k,
            (loaded_at a3 (k - 1) \/ decode (getFramePath a3 k) <> None) <->
            (loaded_at a (k - 1) \/ decode (getFramePath a k) <> None)).
  { intros k. rewrite (getFramePath_config a3 a k Hc3). unfold loaded_at. rewrite Hi3.
    reflexivity. }
  split.
  - intros _ Hall.
    assert (Hr : r4 = Js.Return tt).
    { apply Hsuff. intros k Hk. apply Hsame. apply Hall. exact Hk. }
    rewrite Hr.
    set (a5 := set_progressBar false (set_isLoading false a4)).
    assert (Hall5 : forall i, 0 <= i < frameCount a -> loaded_at a5 i).
    { intros i Hi. replace i with (i + 1 - 1) by lia.
      apply (loaded_at_images a4 a5); [reflexivity|]. apply (Hok Hr). lia. }
    assert (Hlc5 : loadedCount a5 = frameCount a).
    { change (loadedCount a5) with (loadedCount a4). rewrite Hlc4.
      rewrite count_loaded_full; [lia|].
      intros i Hi. apply (loaded_at_lookup a5). apply Hall5. lia. }
    assert (Hp5 : isPlaying a5 = false) by (change (isPlaying a5) with (isPlaying a4);
      unfold isPlaying; rewrite Hp4; exact Hp).
    assert (He5 : hasError a5 = false) by (change (hasError a5) with (hasError a4);
      rewrite He4; exact He).
    assert (Hauto : autoplay a5 = autoplay a)
      by (unfold autoplay; change (config a5) with (config a4); rewrite Hc4; reflexivity).
    rewrite Hauto. destruct (autoplay a) eqn:Ha.
    + rewrite (play_fresh now a5 Hp5 He5 eq_refl).
      split; [exact He5|]. split; [reflexivity|]. split; [exact Hall5|].
      split; [exact Hlc5|]. split; [reflexivity|]. split; [reflexivity|].
      intros _. split; [reflexivity|]. split; [reflexivity|].
      apply requestAnimationFrame_armed.
    + split; [exact He5|]. split; [reflexivity|]. split; [exact Hall5|].
      split; [exact Hlc5|]. split; [reflexivity|]. split; [exact Hp5|]. discriminate.
  - intros [Hnone | (k & Hk & Hempty & Hdec)]; [discriminate|].
    assert (Hr : r4 <> Js.Return tt).
    { intros Hr. destruct (proj1 (Hsame k) (Hnec Hr k Hk)) as [Hl | Hd]; contradiction. }
    destruct r4 as [[]|e4]; [contradiction|].
    split; [reflexivity|].
    split; [change (isPlaying (error a4)) with (isPlaying a4);
            unfold isPlaying; rewrite Hp4; exact Hp|].
    split; [change (h_progressBar (host (error a4))) with (h_progressBar (host a4));
            rewrite Hb4; reflexivity|].
    apply Hblocked. reflexivity.
Qed.

Lemma init_outcome_witness :
  let a := fresh 3 true false in
  0 < frameCount a /\ Z.of_nat (length (images a)) = frameCount a /\
  loadedCount a = count_loaded (images a) /\ isPlaying a = false /\ hasError a = false /\
  hasError (init decode_all 400 300 0 0 a) = false /\
  (forall i, 0 <= i < frameCount a -> loaded_at (init decode_all 400 300 0 0 a) i).
Proof.
  intros a.
  assert (Hc : 0 < frameCount a) by (vm_compute; reflexivity).
  assert (Hlen : Z.of_nat (length (images a)) = frameCount a) by (vm_compute; reflexivity).
  assert (Hlc : loadedCount a = count_loaded (images a)) by (vm_compute; reflexivity).
  assert (Hp : isPlaying a = false) by (vm_compute; reflexivity).
  assert (He : hasError a = false) by (vm_compute; reflexivity).
  split; [exact Hc|]. split; [exact Hlen|]. split; [exact Hlc|].
  split; [exact Hp|]. split; [exact He|].
  destruct (proj1 (init_outcome decode_all 400 300 0 0 a Hc Hlen Hlc Hp He))
    as (He' & _ & Hall & _).
  - discriminate.
  - intros k _. right. discriminate.
  - split; [exact He' | exact Hall].
Defined.

(* ================================================================== *)
(** * Distinct frames, distinct files *)
(* ================================================================== *)

Lemma append_cancel_l (s x y : string) : s +:+ x = s +:+ y -> x = y.
Proof.
  induction s as [|c s IH]; [auto|].
  change (String c (s +:+ x) = String c (s +:+ y) -> x = y).
  intros [= H]. exact (IH H).
Qed.

Lemma length_append (x y : string) :
  String.length (x +:+ y) = (String.length x + String.length y)%nat.
Proof.
  induction x as [|c x IH]; [reflexivity|].
  change (String c x +:+ y) with (String c (x +:+ y)).
  cbn [String.length]. rewrite IH. reflexivity.
Qed.

Lemma append_cancel_r (t : string) : forall x y : string, x +:+ t = y +:+ t -> x = y.
Proof.
  induction x as [|c x IH]; intros [|d y] H.
  - reflexivity.
  - apply (f_equal String.length) in H. rewrite !length_append in H.
    cbn [String.length] in H. lia.
  - apply (f_equal String.length) in H. rewrite !length_append in H.
    cbn [String.length] in H. lia.
  - change (String c (x +:+ t) = String d (y +:+ t)) in H.
    injection H as -> H. f_equal. exact (IH y H).
Qed.

Lemma toString_positive (p : positive) :
  Js.toString (Z.pos p) = NilEmpty.string_of_uint (Pos.to_uint p).
Proof.
  unfold Js.toString. cbn [Z.to_int NilZero.string_of_int]. unfold NilZero.string_of_uint.
  destruct (Pos.to_uint p) eqn:Hp; try reflexivity.
  exfalso. exact (DecimalPos.Unsigned.to_uint_nonnil p Hp).
Qed.

Lemma parse_zeros (k : nat) (d : Decimal.uint) :
  NilEmpty.uint_of_string (zeros k +:+ NilEmpty.string_of_uint d) =
  Some (Nat.iter k Decimal.D0 d).
Proof.
  induction k as [|k IH]; [apply NilEmpty.usu|].
  cbn [zeros]. change (String "0" (zeros k) +:+ NilEmpty.string_of_uint d)
    with (String "0" (zeros k +:+ NilEmpty.string_of_uint d)).
  cbn [NilEmpty.uint_of_string]. rewrite IH. reflexivity.
Qed.

Lemma of_uint_leading_zeros (k : nat) (d : Decimal.uint) :
  Pos.of_uint (Nat.iter k Decimal.D0 d) = Pos.of_uint d.
Proof. induction k as [|k IH]; [reflexivity|]. cbn. exact IH. Qed.

Lemma padStart_zeros (s : string) (d : Q) :
  exists k, Js.padStart s d "0" = zeros k +:+ s.
Proof.
  unfold Js.padStart.
  destruct (Js.ToLength d <=? Z.of_nat (String.length s)); [exists 0%nat; reflexivity|].
  cbn [String.eqb]. 
  eexists. rewrite filler_zeros by auto. reflexivity.
Qed.

(** Two different frame numbers (from 1 up) never share a file: for a
    given object, [getFramePath] is injective on positive numbers,
    whatever the padding width. *)
Theorem getFramePath_injective (a : FrameAnimator) (n m : Z) :
  0 < n -> 0 < m -> getFramePath a n = getFramePath a m -> n = m.
Proof.
  intros Hn Hm H. unfold getFramePath in H.
  do 4 apply append_cancel_l in H. apply append_cancel_r in H.
  destruct n as [|p|p]; try lia. destruct m as [|q|q]; try lia.
  destruct (padStart_zeros (Js.toString (Z.pos p)) (digits a)) as [k1 H1].
  destruct (padStart_zeros (Js.toString (Z.pos q)) (digits a)) as [k2 H2].
  rewrite H1, H2, !toString_positive in H.
  apply (f_equal NilEmpty.uint_of_string) in H. rewrite !parse_zeros in H.
  injection H as H. apply (f_equal Pos.of_uint) in H.
  rewrite !of_uint_leading_zeros, !DecimalPos.Unsigned.of_to in H.
  congruence.
Qed.

Lemma getFramePath_injective_witness :
  0 < 5 /\ 0 < 90 /\
  (getFramePath (ready 90 true false) 5 = getFramePath (ready 90 true false) 90 -> 5 = 90).
Proof.
  split; [reflexivity|]. split; [reflexivity|].
  exact (getFramePath_injective (ready 90 true false) 5 90 eq_refl eq_refl).
Defined.

(* ================================================================== *)
(** * A looping run *)
(* ================================================================== *)

Lemma cycle_tick (timestamp : Q) (n : Z) (b : FrameAnimator) :
  playOnce b = false -> frameCount b = n -> 0 < n ->
  (forall i, 0 <= i < n -> loaded_at b i) ->
  isPlaying b = true -> (exists last, lastTime b = Some last) ->
  0 <= currentFrame b < n ->
  let c := animate timestamp false b in
  config c = config b /\ loading c = loading b /\
  isPlaying c = true /\ (exists last, lastTime c = Some last) /\
  ((currentFrame c = currentFrame b /\ drawn c = drawn b) \/
   (currentFrame c = (currentFrame b + 1) mod n /\
    drawn c = drawn b ++ [(currentFrame b + 1) mod n])).
Proof.
  intros Honce Hfc Hn Hall Hplay [last Hlast] Hrange c.
  destruct (animate_effect timestamp false b) as (Hc & Hl & _).
  destruct (animate_looping timestamp last b Honce Hplay Hlast) as (_ & Hp & _ & Ht & _).
  split; [exact Hc|]. split; [exact Hl|]. split; [exact Hp|]. split; [exact Ht|].
  subst c.
  assert (Hguard : playOnce b && hasPlayed b = false) by (rewrite Honce; reflexivity).
  destruct (Qlt_le_dec (interval b) (Js.sub timestamp last)) as [Hlate | Hearly].
  - right.
    destruct (animate_late_effect timestamp last false b Hplay Hguard Hlast Hlate)
      as (Hac & Had & _).
    destruct (renderFrame_unfrozen false b (unfrozen_of_not_completed b Hguard)) as (Hrc & Hrd).
    rewrite Hfc, rem_is_mod in Hrc, Hrd by lia.
    destruct (Hall ((currentFrame b + 1) mod n)) as [img Hslot];
      [apply Z.mod_pos_bound; lia|].
    rewrite Hslot in Hrd. split; congruence.
  - left. rewrite (animate_early timestamp last false b Hplay Hguard Hlast Hearly).
    split; reflexivity.
Qed.

Lemma cycle_run (n : Z) (ts : list (Q * bool)) :
  Forall (fun p => snd p = false) ts ->
  forall b : FrameAnimator,
    playOnce b = false -> frameCount b = n -> 0 < n ->
    (forall i, 0 <= i < n -> loaded_at b i) ->
    isPlaying b = true -> (exists last, lastTime b = Some last) ->
    0 <= currentFrame b < n ->
    exists m : nat,
      isPlaying (ticks ts b) = true /\
      currentFrame (ticks ts b) = (currentFrame b + Z.of_nat m) mod n /\
      drawn (ticks ts b) =
        drawn b ++ map (fun j => (currentFrame b + Z.of_nat j) mod n) (seq 1 m).
Proof.
  induction 1 as [|[timestamp throws] ts Hthrows Hts IH];
    intros b Honce Hfc Hn Hall Hplay Hlast Hrange.
  - exists 0%nat. cbn [ticks seq map]. rewrite Z.add_0_r, Z.mod_small, app_nil_r by lia.
    repeat split; auto.
  - cbn [snd] in Hthrows. subst throws. cbn [ticks].
    destruct (cycle_tick timestamp n b Honce Hfc Hn Hall Hplay Hlast Hrange)
      as (Hc & Hl & Hp & Ht & Hcase).
    set (c := animate timestamp false b) in *.
    assert (Honce' : playOnce c = false) by (unfold playOnce; rewrite Hc; exact Honce).
    assert (Hfc' : frameCount c = n) by (unfold frameCount; rewrite Hc; exact Hfc).
    assert (Hall' : forall i, 0 <= i < n -> loaded_at c i).
    { intros i Hi. apply (loaded_at_images b c i); [|apply Hall; exact Hi].
      unfold images. rewrite Hl. reflexivity. }
    destruct Hcase as [[Hcur Hd] | [Hcur Hd]].
    + destruct (IH c Honce' Hfc' Hn Hall' Hp Ht) as (m & H1 & H2 & H3); [rewrite Hcur; exact Hrange|].
      exists m. rewrite H2, H3, Hcur, Hd. repeat split; auto.
    + destruct (IH c Honce' Hfc' Hn Hall' Hp Ht) as (m & H1 & H2 & H3);
        [rewrite Hcur; apply Z.mod_pos_bound; lia|].
      exists (S m). split; [exact H1|]. split.
      * rewrite H2, Hcur, Zplus_mod_idemp_l. f_equal. lia.
      * rewrite H3, Hd, Hcur, <- app_assoc. f_equal.
        cbn [seq map app]. f_equal.
        rewrite <- (seq_shift m 1), List.map_map. apply List.map_ext. intros j.
        rewrite Zplus_mod_idemp_l. f_equal. lia.
Qed.

(** A run that is not play-once, on loaded frames and with no failing
    draw: however the ticks are timed, playback goes on, and the frames
    drawn since the start are the successors of the start index in cyclic
    order, each tick that draws showing the frame after the one before it
    and the last frame being followed by frame 0. *)
Theorem looping_run_draws_in_cycle (a : FrameAnimator) (ts : list (Q * bool)) :
  playOnce a = false ->
  0 < frameCount a ->
  (forall i, 0 <= i < frameCount a -> loaded_at a i) ->
  isPlaying a = true ->
  (exists last, lastTime a = Some last) ->
  0 <= currentFrame a < frameCount a ->
  Forall (fun p => snd p = false) ts ->
  exists m : nat,
    isPlaying (ticks ts a) = true /\
    currentFrame (ticks ts a) = (currentFrame a + Z.of_nat m) mod frameCount a /\
    drawn (ticks ts a) =
      drawn a ++ map (fun j => (currentFrame a + Z.of_nat j) mod frameCount a) (seq 1 m).
Proof.
  intros Honce Hn Hall Hplay Hlast Hrange Hts.
  exact (cycle_run (frameCount a) ts Hts a Honce eq_refl Hn Hall Hplay Hlast Hrange).
Qed.

Lemma looping_run_draws_in_cycle_witness :
  let a := play 0 (ready 3 true false) in
  let ts := [(41, false); (82, false); (90, false); (123, false); (170, false)]%Q in
  playOnce a = false /\ 0 < frameCount a /\ isPlaying a = true /\
  0 <= currentFrame a < frameCount a /\
  exists m : nat,
    currentFrame (ticks ts a) = (currentFrame a + Z.of_nat m) mod frameCount a /\
    drawn (ticks ts a) =
      drawn a ++ map (fun j => (currentFrame a + Z.of_nat j) mod frameCount a) (seq 1 m).
Proof.
  intros a ts.
  assert (Honce : playOnce a = false) by (vm_compute; reflexivity).
  assert (Hcount : 0 < frameCount a) by (vm_compute; reflexivity).
  assert (Hp : isPlaying a = true) by (vm_compute; reflexivity).
  assert (Hlast : exists last, lastTime a = Some last) by (eexists; vm_compute; reflexivity).
  assert (Hrange : 0 <= currentFrame a < frameCount a)
    by (vm_compute; split; discriminate || reflexivity).
  assert (Hall : forall i, 0 <= i < frameCount a -> loaded_at a i).
  { intros i Hi. change (frameCount a) with 3 in Hi.
    assert (Hcases : i = 0 \/ i = 1 \/ i = 2) by lia.
    destruct Hcases as [-> | [-> | ->]]; eexists; vm_compute; reflexivity. }
  assert (Hts : Forall (fun p : Q * bool => snd p = false) ts) by (repeat constructor).
  split; [exact Honce|]. split; [exact Hcount|]. split; [exact Hp|]. split; [exact Hrange|].
  destruct (looping_run_draws_in_cycle a ts Honce Hcount Hall Hp Hlast Hrange Hts)
    as (m & _ & Hcur & Hd).
  exists m. split; [exact Hcur | exact Hd].
Defined.

(** Five ticks on three frames: 1, 2, 0, 1. *)
Example looping_run_of_three :
  drawn (ticks [(41, false); (82, false); (90, false); (123, false); (170, false)]%Q
           (play 0 (ready 3 true false))) = [1; 2; 0; 1].
Proof. vm_compute. reflexivity. Qed.
